(** * Derived document metrics of the Legucid front end

    Shallow embedding of the client-side computations of the upload
    component ([calculateTimeSaved], [processResponseData]), of the
    Dashboard view (its own [calculateTimeSaved]) and of the detailed
    analysis view ([sortClausesByRisk], [performSemanticSearch]), and the
    properties the specification states about them; then the values the
    Dashboard, the risk pie chart, the detailed analysis view and the
    counter-proposal view derive from the stored record, the upload
    handlers, and the properties the code has beyond the
    specification. *)

From Stdlib Require Import ZArith QArith Qround Qpower Qreduction.
From Stdlib Require Import Lia Lqa Bool List String Ascii DecimalString.
From Stdlib Require Qcanon.
From Stdlib Require PrimFloat FloatOps SpecFloat.
From Stdlib Require Import Permutation Sorted.
From Stdlib Require DecimalPos DecimalZ.
Import ListNotations.

Set Implicit Arguments.

(* ================================================================== *)
(** * JavaScript numbers *)
(* ================================================================== *)

(** A JavaScript number is an IEEE 754 binary64 value.  Finite values are
    kept as the rational they denote, in lowest terms; every arithmetic
    operation computes the exact rational result and rounds it to the
    nearest binary64 value, ties to even ([round64]); [Binary64Check], at
    the end, compares the results with the hardware's on the values used
    below.  The sign of zero is not represented: no operation of the
    embedded program tells [-0] from [+0] (its only divisor is [S + 50],
    and a sum is [-0] only when both summands are).  A number read from a
    payload may be any [Fin q]; what the operations return is always a
    binary64 value. *)

Module JsNumber.

Inductive number : Type :=
| NaN
| PInf
| NInf
| Fin (q : Q).

Definition of_Z (z : Z) : number := Fin (inject_Z z).

Local Open Scope Q_scope.

(** [pow2 e] is 2^e for any integer exponent. *)
Definition pow2 (e : Z) : Q := 2 ^ e.

(** Nearest integer, ties to the even one. *)
Definition rne (x : Q) : Z :=
  let k := Qfloor x in
  match Qcompare (x - inject_Z k) (1 # 2) with
  | Lt => k
  | Gt => (k + 1)%Z
  | Eq => if Z.even k then k else (k + 1)%Z
  end.

(** [ilog2 a] is the binary exponent of a positive rational:
    2^(ilog2 a) <= a < 2^(ilog2 a + 1). *)
Definition ilog2 (a : Q) : Z :=
  let k := (Z.log2 (Qnum a) - Z.log2 (Zpos (Qden a)))%Z in
  if Qle_bool (pow2 k) a then k else (k - 1)%Z.

(** binary64: 53 bits of precision, least normal exponent -1022, values
    from 2^1024 on overflow. *)
Definition prec : Z := 53.
Definition emin : Z := -1022.
Definition emax : Z := 1024.

(** Unit in the last place used for a positive rational [a]. *)
Definition ulp (a : Q) : Q := pow2 (Z.max (ilog2 a) emin - (prec - 1)).

(** The rounded magnitude of a positive rational, before the overflow test. *)
Definition round_mag (a : Q) : Q := inject_Z (rne (a / ulp a)) * ulp a.

Definition round_pos (a : Q) : number :=
  let v := round_mag a in
  if Qle_bool (pow2 emax) v then PInf else Fin (Qred v).

Definition neg (x : number) : number :=
  match x with
  | NaN => NaN
  | PInf => NInf
  | NInf => PInf
  | Fin q => Fin (- q)
  end.

Definition round64 (q : Q) : number :=
  match Qcompare q 0 with
  | Eq => Fin 0
  | Gt => round_pos q
  | Lt => neg (round_pos (- q))
  end.

(** [Number.MAX_VALUE], (2^53 - 1) * 2^971. *)
Definition MAX_VALUE : Q := inject_Z (2 ^ 53 - 1) * pow2 971.

(** ** Arithmetic: [+], [-], [*], [/] *)

Definition add (x y : number) : number :=
  match x, y with
  | NaN, _ | _, NaN => NaN
  | PInf, NInf | NInf, PInf => NaN
  | PInf, _ | _, PInf => PInf
  | NInf, _ | _, NInf => NInf
  | Fin a, Fin b => round64 (a + b)
  end.

Definition sub (x y : number) : number := add x (neg y).

(** Sign of a finite value: [Lt] negative, [Eq] zero, [Gt] positive. *)
Definition sgn (q : Q) : comparison := Qcompare q 0.

Definition mul (x y : number) : number :=
  match x, y with
  | NaN, _ | _, NaN => NaN
  | Fin a, Fin b => round64 (a * b)
  | PInf, PInf | NInf, NInf => PInf
  | PInf, NInf | NInf, PInf => NInf
  | PInf, Fin q | Fin q, PInf =>
      match sgn q with Eq => NaN | Gt => PInf | Lt => NInf end
  | NInf, Fin q | Fin q, NInf =>
      match sgn q with Eq => NaN | Gt => NInf | Lt => PInf end
  end.

Definition div (x y : number) : number :=
  match x, y with
  | NaN, _ | _, NaN => NaN
  | PInf, PInf | PInf, NInf | NInf, PInf | NInf, NInf => NaN
  | PInf, Fin q => match sgn q with Lt => NInf | _ => PInf end
  | NInf, Fin q => match sgn q with Lt => PInf | _ => NInf end
  | Fin _, PInf | Fin _, NInf => Fin 0
  | Fin a, Fin b =>
      match sgn b with
      | Eq => match sgn a with Eq => NaN | Gt => PInf | Lt => NInf end
      | _ => round64 (a / b)
      end
  end.

(** ** [Math.floor] and [Math.round] (ties towards +infinity); both are
    exact on binary64 values. *)

Definition floor (x : number) : number :=
  match x with
  | Fin q => of_Z (Qfloor q)
  | _ => x
  end.

Definition round (x : number) : number :=
  match x with
  | Fin q => of_Z (Qfloor (q + (1 # 2)))
  | _ => x
  end.

(** ** Comparison and truthiness *)

Definition ltb (x y : number) : bool :=
  match x, y with
  | NaN, _ | _, NaN => false
  | _, NInf => false
  | NInf, _ => true
  | PInf, _ => false
  | _, PInf => true
  | Fin a, Fin b => match Qcompare a b with Lt => true | _ => false end
  end.

Definition gtb (x y : number) : bool := ltb y x.

(** [0] and [NaN] are the falsy numbers. *)
Definition truthy (x : number) : bool :=
  match x with
  | NaN => false
  | Fin q => negb (Qeq_bool q 0)
  | _ => true
  end.

(** The order on numbers as a proposition; [NaN] is related to nothing. *)
Definition le (x y : number) : Prop :=
  match x, y with
  | NaN, _ | _, NaN => False
  | NInf, _ => True
  | _, PInf => True
  | Fin a, Fin b => a <= b
  | _, _ => False
  end.

Definition lt (x y : number) : Prop :=
  match x, y with
  | NaN, _ | _, NaN => False
  | _, NInf => False
  | NInf, _ => True
  | PInf, _ => False
  | _, PInf => True
  | Fin a, Fin b => a < b
  end.

End JsNumber.

(** ** The hardware's binary64 numbers, for comparison

    [of_float] reads a primitive (hardware) binary64 float as a [number];
    the model is checked against the primitive operations on the values
    the properties below compute with. *)

Module Binary64.

Import JsNumber.

Definition of_float (f : PrimFloat.float) : number :=
  match FloatOps.Prim2SF f with
  | SpecFloat.S754_zero _ => Fin 0
  | SpecFloat.S754_infinity s => if s then NInf else PInf
  | SpecFloat.S754_nan => NaN
  | SpecFloat.S754_finite s m e =>
      let v := (inject_Z (Zpos m) * pow2 e)%Q in
      Fin (Qred (if s then - v else v))
  end.

End Binary64.

(* ================================================================== *)
(** * JavaScript strings *)
(* ================================================================== *)

(** A string is a sequence of UTF-16 code units below 256, that is, of
    the characters U+0000 to U+00FF (Latin-1), one [ascii] for each.
    The operations below are those of JavaScript on such strings. *)

Module JsString.

Import JsNumber.
Local Open Scope string_scope.

(** Decimal numeral of an integer, with a leading [-] when negative. *)
Definition decimal (z : Z) : string := NilZero.string_of_int (Z.to_int z).

(** [Number::toString] as a template literal applies it.  Integral values
    of magnitude at most 2^53 print as their decimal numeral; the three
    special values print by name.  Other values (fractions, which print
    with shortest round-trip digits, and larger magnitudes, which print
    rounded digits or in exponent notation) are outside the modelled
    fragment and give [None]. *)
Definition Number_toString (x : number) : option string :=
  match x with
  | NaN => Some "NaN"
  | PInf => Some "Infinity"
  | NInf => Some "-Infinity"
  | Fin q =>
      let r := Qred q in
      if (Zpos (Qden r) =? 1)%Z && (Z.abs (Qnum r) <=? 2 ^ 53)%Z
      then Some (decimal (Qnum r))
      else None
  end.

(** [String.prototype.toLowerCase] on one character.  The letters A to
    Z (65 to 90), and U+00C0 to U+00DE (192 to 222) without the
    multiplication sign U+00D7 (215), go to the letter 32 places on; no
    other character below U+0100 has a lower-case form other than
    itself, and none has one of more than one character. *)
Definition lower_char (c : ascii) : ascii :=
  let n := nat_of_ascii c in
  if ((65 <=? n)%nat && (n <=? 90)%nat)
     || ((192 <=? n)%nat && (n <=? 222)%nat && negb (n =? 215)%nat)
  then ascii_of_nat (n + 32) else c.

Fixpoint toLowerCase (s : string) : string :=
  match s with
  | EmptyString => EmptyString
  | String c r => String (lower_char c) (toLowerCase r)
  end.

(** The white space and line terminators [String.prototype.trim]
    removes, among the characters below U+0100: tab, line feed, vertical
    tab, form feed, carriage return (9 to 13), space (32) and no-break
    space (U+00A0, 160). *)
Definition is_space (c : ascii) : bool :=
  let n := nat_of_ascii c in
  ((9 <=? n)%nat && (n <=? 13)%nat) || (n =? 32)%nat || (n =? 160)%nat.

Fixpoint trimStart (s : string) : string :=
  match s with
  | EmptyString => EmptyString
  | String c r => if is_space c then trimStart r else s
  end.

(** Removes trailing white space: a character is dropped when it is white
    space and nothing but white space follows it. *)
Fixpoint trimEnd (s : string) : string :=
  match s with
  | EmptyString => EmptyString
  | String c r =>
      match trimEnd r with
      | EmptyString => if is_space c then EmptyString else String c EmptyString
      | r' => String c r'
      end
  end.

Definition trim (s : string) : string := trimEnd (trimStart s).

(** [s.split(sep)] for a one-character separator: the pieces between the
    occurrences of [sep], empty pieces included; always at least one. *)
Fixpoint split (sep : ascii) (s : string) : list string :=
  match s with
  | EmptyString => [EmptyString]
  | String c r =>
      if Ascii.eqb c sep then EmptyString :: split sep r
      else match split sep r with
           | p :: ps => String c p :: ps
           | [] => [String c EmptyString]
           end
  end.

(** [s.includes(t)]: [t] occurs in [s] as a substring. *)
Fixpoint includes (s t : string) : bool :=
  prefix t s ||
  match s with
  | EmptyString => false
  | String _ r => includes r t
  end.

End JsString.

Declare Scope js_scope.
Delimit Scope js_scope with js.
Infix "+" := JsNumber.add : js_scope.
Infix "-" := JsNumber.sub : js_scope.
Infix "*" := JsNumber.mul : js_scope.
Infix "/" := JsNumber.div : js_scope.
Infix ">" := JsNumber.gtb : js_scope.

(** The template literal [`${hours} hr ${minutes} min`]. *)
Definition hr_min (hours minutes : JsNumber.number) : option string :=
  match JsString.Number_toString hours, JsString.Number_toString minutes with
  | Some h, Some m => Some (h ++ " hr " ++ m ++ " min")%string
  | _, _ => None
  end.

(* ================================================================== *)
(** * The time-saved estimate *)
(* ================================================================== *)

(** ** The upload component's [calculateTimeSaved] *)

Module DocumentUpload.

Import JsNumber.
Local Open Scope js_scope.

(** [const S = pages * 2 + clauses * 1.5]; 1.5 is a binary64 value. *)
Definition S (pages clauses : number) : number :=
  pages * of_Z 2 + clauses * Fin 1.5.

(** [const timeSavedHours = 1 + S / (S + 50)] *)
Definition timeSavedHours (S : number) : number :=
  of_Z 1 + S / (S + of_Z 50).

Definition calculateTimeSaved (pages clauses : number) : option string :=
  let S := S pages clauses in
  let timeSavedHours := timeSavedHours S in
  let hours := floor timeSavedHours in
  let minutes := round ((timeSavedHours - hours) * of_Z 60) in
  hr_min hours minutes.

End DocumentUpload.

(** ** The Dashboard view's [calculateTimeSaved] *)

Module Dashboard.

Import JsNumber.
Local Open Scope js_scope.

Definition calculateTimeSaved (pages clauses : number) : option string :=
  let S := (pages * of_Z 2) + (clauses * Fin 1.5) in
  let timeSavedHours := of_Z 1 + (S / (S + of_Z 50)) in
  let hours := floor timeSavedHours in
  let minutes := round ((timeSavedHours - hours) * of_Z 60) in
  hr_min hours minutes.

End Dashboard.

(** ** The estimator as the specification words it

    [S = pageCount * 2 + totalClauses * 1.5],
    [timeSavedHours = 1 + S / (S + 50)], [hours = floor(timeSavedHours)],
    [minutes = round((timeSavedHours - hours) * 60)],
    result ["{hours} hr {minutes} min"]. *)

Module TimeSavedEstimator.

Import JsNumber.
Local Open Scope js_scope.

Definition estimate (pageCount totalClauses : number) : option string :=
  let S := pageCount * of_Z 2 + totalClauses * Fin 1.5 in
  let timeSavedHours := of_Z 1 + S / (S + of_Z 50) in
  let hours := floor timeSavedHours in
  let minutes := round ((timeSavedHours - hours) * of_Z 60) in
  hr_min hours minutes.

End TimeSavedEstimator.

(* ================================================================== *)
(** * Response normalisation and risk aggregation *)
(* ================================================================== *)

(** ** The backend payload, as the code reads it

    Optional fields are [option]s.  A clause's [risk_level] and
    [reasoning] are strings, an absent one being the empty string: the
    code only compares [risk_level] with string literals and only uses
    [reasoning] through [|| default], and both treat [undefined] like
    the empty string.  Its [clause_text] and [potential_issues] are
    optional: the counter-proposal view tells an absent one from an
    empty one. *)

Record ClauseAssessment : Type := {
  clause_text : option string;
  risk_level : string;
  reasoning : string;
  potential_issues : option (list string)
}.

Module Payload.

Record RiskAssessment : Type := {
  document_name : option string;
  clause_assessments : option (list ClauseAssessment);
  recommendations : option (list string)
}.

Record RiskSummary : Type := {
  high_risk_clauses : option JsNumber.number;
  medium_risk_clauses : option JsNumber.number;
  low_risk_clauses : option JsNumber.number;
  total_clauses_assessed : option JsNumber.number
}.

Record t : Type := {
  risk_assessment : option RiskAssessment;
  risk_summary : option RiskSummary;
  page_count : option JsNumber.number;
  gcs_uri : option string
}.

(** The empty object [{}] that stands in for a missing [risk_assessment]
    or [risk_summary]. *)
Definition empty_assessment : RiskAssessment :=
  {| document_name := None; clause_assessments := None;
     recommendations := None |}.

Definition empty_summary : RiskSummary :=
  {| high_risk_clauses := None; medium_risk_clauses := None;
     low_risk_clauses := None; total_clauses_assessed := None |}.

End Payload.

(** ** The normalised record ([types/documentAnalysis.ts]) *)

Inductive Risk : Type := high | medium | low.

Module RiskImpact.
Record t : Type := {
  id : string;
  name : string;
  description : string;
  risk : Risk
}.
End RiskImpact.

Module RiskData.
Record t : Type := {
  name : string;
  value : nat;
  color : string;
  impacts : list RiskImpact.t
}.
End RiskData.

Module Assessment.
(** [risk_assessment] of the normalised record: the backend's object
    spread unchanged, then [gcs_uri] and the three impact lists. *)
Record t : Type := {
  original : Payload.RiskAssessment;
  gcs_uri : string;
  high : list RiskImpact.t;
  medium : list RiskImpact.t;
  low : list RiskImpact.t
}.
End Assessment.

Record DocumentAnalysisData : Type := {
  document_name : string;
  total_clauses : JsNumber.number;
  flagged_clauses : JsNumber.number;
  time_saved : option string;
  risk_assessment : Assessment.t;
  risk_data : list RiskData.t;
  upload_time : string;
  page_count : JsNumber.number
}.

(** ** JavaScript idioms used by the normaliser *)

(** [(v as number) || d]: [d] when [v] is absent, [0] or [NaN]. *)
Definition num_or (v : option JsNumber.number) (d : JsNumber.number)
  : JsNumber.number :=
  match v with
  | Some x => if JsNumber.truthy x then x else d
  | None => d
  end.

(** [(v as string) || d]: [d] when [v] is absent or empty. *)
Definition str_or (v : option string) (d : string) : string :=
  match v with
  | Some EmptyString | None => d
  | Some s => s
  end.

(** [(v as Array) || []] *)
Definition list_or {A : Type} (v : option (list A)) : list A :=
  match v with
  | Some l => l
  | None => []
  end.

(** [list.map((x, index) => f x index)] *)
Fixpoint mapi_from {A B : Type} (i : nat) (f : A -> nat -> B) (l : list A)
  : list B :=
  match l with
  | [] => []
  | x :: r => f x i :: mapi_from (Datatypes.S i) f r
  end.

Definition mapi {A B : Type} (f : A -> nat -> B) (l : list A) : list B :=
  mapi_from 0 f l.

Definition nat_str (n : nat) : string := JsString.decimal (Z.of_nat n).

(** [riskData.find((item) => item.name === n)?.impacts || []] *)
Definition impacts_of (n : string) (riskData : list RiskData.t)
  : list RiskImpact.t :=
  match find (fun item => String.eqb (RiskData.name item) n) riskData with
  | Some item => RiskData.impacts item
  | None => []
  end.

(** ** [processResponseData]

    [fileName] is [file.name]; [now] is what [new Date().toLocaleString()]
    returns when the function runs.  [riskData.push] is the rebinding of
    [riskData]; the logging and the unused [clauseSummaries] are left
    out.  A bucket's [value] is an array length, a [nat]. *)

Definition processResponseData
    (responseData : Payload.t) (fileName : string) (now : string)
  : DocumentAnalysisData :=
  let riskAssessment :=
    match Payload.risk_assessment responseData with
    | Some a => a | None => Payload.empty_assessment end in
  let riskSummary :=
    match Payload.risk_summary responseData with
    | Some s => s | None => Payload.empty_summary end in
  let highRiskClauses :=
    num_or (Payload.high_risk_clauses riskSummary) (JsNumber.of_Z 0) in
  let mediumRiskClauses :=
    num_or (Payload.medium_risk_clauses riskSummary) (JsNumber.of_Z 0) in
  let lowRiskClauses :=
    num_or (Payload.low_risk_clauses riskSummary) (JsNumber.of_Z 0) in
  let totalClauses :=
    num_or (Payload.total_clauses_assessed riskSummary) (JsNumber.of_Z 0) in
  let clauseAssessments :=
    list_or (Payload.clause_assessments riskAssessment) in
  let riskData := [] in
  let riskData :=
    if (highRiskClauses > JsNumber.of_Z 0)%js then
      let highRiskClausesList :=
        filter (fun clause => String.eqb (risk_level clause) "high")
               clauseAssessments in
      riskData ++ [
        {| RiskData.name := "High";
           RiskData.value := List.length highRiskClausesList;
           RiskData.color := "#ef4444";
           RiskData.impacts :=
             mapi (fun clause index =>
               {| RiskImpact.id := ("high-" ++ nat_str index)%string;
                  RiskImpact.name := ("Clause " ++ nat_str (index + 1))%string;
                  RiskImpact.description :=
                    str_or (Some (reasoning clause))
                           "High risk clause identified";
                  RiskImpact.risk := high |}) highRiskClausesList |} ]
    else riskData in
  let riskData :=
    if (mediumRiskClauses > JsNumber.of_Z 0)%js then
      let mediumRiskClausesList :=
        filter (fun clause => String.eqb (risk_level clause) "medium")
               clauseAssessments in
      riskData ++ [
        {| RiskData.name := "Medium";
           RiskData.value := List.length mediumRiskClausesList;
           RiskData.color := "#eab308";
           RiskData.impacts :=
             mapi (fun clause index =>
               {| RiskImpact.id := ("medium-" ++ nat_str index)%string;
                  RiskImpact.name := ("Clause " ++ nat_str (index + 1))%string;
                  RiskImpact.description :=
                    str_or (Some (reasoning clause))
                           "Medium risk clause identified";
                  RiskImpact.risk := medium |}) mediumRiskClausesList |} ]
    else riskData in
  let riskData :=
    if (lowRiskClauses > JsNumber.of_Z 0)%js then
      let lowRiskClausesList :=
        filter (fun clause => String.eqb (risk_level clause) "low")
               clauseAssessments in
      riskData ++ [
        {| RiskData.name := "Low";
           RiskData.value := List.length lowRiskClausesList;
           RiskData.color := "#22c55e";
           RiskData.impacts :=
             mapi (fun clause index =>
               {| RiskImpact.id := ("low-" ++ nat_str index)%string;
                  RiskImpact.name := ("Clause " ++ nat_str (index + 1))%string;
                  RiskImpact.description :=
                    str_or (Some (reasoning clause))
                           "Low risk clause identified";
                  RiskImpact.risk := low |}) lowRiskClausesList |} ]
    else riskData in
  let flaggedClauses := (highRiskClauses + mediumRiskClauses)%js in
  let gcsUri := str_or (Payload.gcs_uri responseData) "" in
  let pageCount :=
    num_or (Payload.page_count responseData) (JsNumber.of_Z 24) in
  let timeSaved := DocumentUpload.calculateTimeSaved pageCount totalClauses in
  {| document_name := str_or (Payload.document_name riskAssessment) fileName;
     total_clauses := totalClauses;
     flagged_clauses := flaggedClauses;
     time_saved := timeSaved;
     risk_assessment :=
       {| Assessment.original := riskAssessment;
          Assessment.gcs_uri := gcsUri;
          Assessment.high := impacts_of "High" riskData;
          Assessment.medium := impacts_of "Medium" riskData;
          Assessment.low := impacts_of "Low" riskData |};
     risk_data := riskData;
     upload_time := now;
     page_count := pageCount |}.

(* ================================================================== *)
(** * Clause ranking and search (detailed analysis view) *)
(* ================================================================== *)

Module DetailedDocumentAnalysis.

Record Clause : Type := {
  title : string;
  risk : Risk;
  summary : string;
  impact : string;
  fullText : string;
  marketComparison : string;
  recommendations : list string;
  riskDetails : string
}.

(** [Array.prototype.sort(compare)], a stable sort: an element goes in
    front of the first later element it does not compare greater than, so
    elements that compare equal keep their order. *)
Section Sort.
Context {A : Type} (compare : A -> A -> Z).

Fixpoint insert (x : A) (l : list A) : list A :=
  match l with
  | [] => [x]
  | y :: r => if (compare x y <=? 0)%Z then x :: l else y :: insert x r
  end.

Fixpoint sort (l : list A) : list A :=
  match l with
  | [] => []
  | x :: r => insert x (sort r)
  end.

End Sort.

(** [const riskOrder = { high: 0, medium: 1, low: 2 }] *)
Definition riskOrder (r : Risk) : Z :=
  match r with
  | high => 0
  | medium => 1
  | low => 2
  end.

Definition sortClausesByRisk (clauseList : list Clause) : list Clause :=
  sort (fun a b => (riskOrder (risk a) - riskOrder (risk b))%Z) clauseList.

(** [`${clause.title} ${clause.summary} ${clause.impact}`.toLowerCase()] *)
Definition searchableText (clause : Clause) : string :=
  JsString.toLowerCase
    (title clause ++ " " ++ summary clause ++ " " ++ impact clause)%string.

(** [query.toLowerCase().split(' ')] *)
Definition searchTerms (query : string) : list string :=
  JsString.split " "%char (JsString.toLowerCase query).

(** The list handed to [setFilteredClauses]; [clauses.filter] makes a new
    array, which the sort then orders. *)
Definition performSemanticSearch (clauses : list Clause) (query : string)
  : list Clause :=
  match JsString.trim query with
  | EmptyString => sortClausesByRisk clauses
  | _ =>
      let results :=
        filter (fun clause =>
                  existsb (fun term =>
                             JsString.includes (searchableText clause) term)
                          (searchTerms query))
               clauses in
      sortClausesByRisk results
  end.

End DetailedDocumentAnalysis.

(* ================================================================== *)
(** * Vocabulary of the specification *)
(* ================================================================== *)

(** What the properties below are stated with: views of the payload and
    of the normalised record, and the specification's own wording of the
    aggregation and search contracts, to be compared with the code. *)

Module Spec.

Import JsNumber.
Local Open Scope string_scope.

(** The clause assessments of a payload, [[]] when there are none. *)
Definition clauses_of (resp : Payload.t) : list ClauseAssessment :=
  match Payload.risk_assessment resp with
  | Some a => list_or (Payload.clause_assessments a)
  | None => []
  end.

Definition summary_of (resp : Payload.t) : Payload.RiskSummary :=
  match Payload.risk_summary resp with
  | Some s => s
  | None => Payload.empty_summary
  end.

(** The bucket name and the [risk_level] string of a level. *)
Definition level_name (r : Risk) : string :=
  match r with high => "High" | medium => "Medium" | low => "Low" end.

Definition level_key (r : Risk) : string :=
  match r with high => "high" | medium => "medium" | low => "low" end.

(** The count the backend reports for a level in [risk_summary], [0] when
    it reports none. *)
Definition reported (r : Risk) (resp : Payload.t) : number :=
  let s := summary_of resp in
  match r with
  | high => num_or (Payload.high_risk_clauses s) (of_Z 0)
  | medium => num_or (Payload.medium_risk_clauses s) (of_Z 0)
  | low => num_or (Payload.low_risk_clauses s) (of_Z 0)
  end.

Definition reported_total (resp : Payload.t) : number :=
  num_or (Payload.total_clauses_assessed (summary_of resp)) (of_Z 0).

(** Number of clauses of a given [risk_level]. *)
Definition count_level (lvl : string) (cs : list ClauseAssessment) : nat :=
  List.length (filter (fun c => String.eqb (risk_level c) lvl) cs).

Definition recognised (c : ClauseAssessment) : Prop :=
  risk_level c = "high" \/ risk_level c = "medium" \/ risk_level c = "low".

(** The bucket of a given name, if there is one. *)
Definition bucket (n : string) (buckets : list RiskData.t)
  : option RiskData.t :=
  find (fun item => String.eqb (RiskData.name item) n) buckets.

Definition total_value (buckets : list RiskData.t) : nat :=
  list_sum (map RiskData.value buckets).

(** "Aggregation totals": a High, a Medium and a Low bucket whose values
    are the numbers of high, medium and low clauses, which add up to the
    number of clauses. *)
Definition aggregation_totals
    (cs : list ClauseAssessment) (buckets : list RiskData.t) : Prop :=
  (exists b, bucket "High" buckets = Some b /\
             RiskData.value b = count_level "high" cs) /\
  (exists b, bucket "Medium" buckets = Some b /\
             RiskData.value b = count_level "medium" cs) /\
  (exists b, bucket "Low" buckets = Some b /\
             RiskData.value b = count_level "low" cs) /\
  (count_level "high" cs + count_level "medium" cs + count_level "low" cs
   = List.length cs)%nat.

(** The RiskAggregator of the specification: partition the clauses by
    level; per level, [value] is the group size and [impacts] has one
    impact per clause of the group, numbered within the group, described
    by the clause's reasoning or else by the level's default text. *)
Definition level_color (r : Risk) : string :=
  match r with high => "#ef4444" | medium => "#eab308" | low => "#22c55e" end.

Definition default_description (r : Risk) : string :=
  match r with
  | high => "High risk clause identified"
  | medium => "Medium risk clause identified"
  | low => "Low risk clause identified"
  end.

Definition impact_of (r : Risk) (clause : ClauseAssessment) (index : nat)
  : RiskImpact.t :=
  {| RiskImpact.id := level_key r ++ "-" ++ nat_str index;
     RiskImpact.name := "Clause " ++ nat_str (index + 1);
     RiskImpact.description :=
       str_or (Some (reasoning clause)) (default_description r);
     RiskImpact.risk := r |}.

Definition bucket_of (r : Risk) (cs : list ClauseAssessment) : RiskData.t :=
  let group := filter (fun c => String.eqb (risk_level c) (level_key r)) cs in
  {| RiskData.name := level_name r;
     RiskData.value := List.length group;
     RiskData.color := level_color r;
     RiskData.impacts := mapi (impact_of r) group |}.

Definition aggregate (cs : list ClauseAssessment) : list RiskData.t :=
  map (fun r => bucket_of r cs) [high; medium; low].

(** The levels for which the backend reports a positive count. *)
Definition reported_levels (resp : Payload.t) : list Risk :=
  filter (fun r => (reported r resp > of_Z 0)%js) [high; medium; low].

(** "Always length 3, ordered High, Medium, Low". *)
Definition three_buckets (buckets : list RiskData.t) : Prop :=
  map RiskData.name buckets = ["High"; "Medium"; "Low"]%string.

(** "Each with value = 0 and impacts = []". *)
Definition zero_state (buckets : list RiskData.t) : Prop :=
  Forall (fun b => RiskData.value b = 0%nat /\ RiskData.impacts b = [])
         buckets.

(** "flagged_clauses = high_count + medium_count, and
    flagged_clauses <= total_clauses", the counts being the reported ones. *)
Definition flagged_invariant (resp : Payload.t) (d : DocumentAnalysisData)
  : Prop :=
  flagged_clauses d = (reported high resp + reported medium resp)%js /\
  le (flagged_clauses d) (total_clauses d).

(** "total_clauses is never below the number of clause assessments". *)
Definition total_covers_clauses (resp : Payload.t) (d : DocumentAnalysisData)
  : Prop :=
  le (of_Z (Z.of_nat (List.length (clauses_of resp)))) (total_clauses d).

(** "page_count defaults to 24 if absent or non-positive", and a positive
    one is kept. *)
Definition page_count_rule (resp : Payload.t) (d : DocumentAnalysisData)
  : Prop :=
  match Payload.page_count resp with
  | None => page_count d = of_Z 24
  | Some v =>
      (le v (of_Z 0) -> page_count d = of_Z 24) /\
      (lt (of_Z 0) v -> page_count d = v)
  end.








(** The clauses of a given risk, in list order. *)
Definition risk_eqb (a b : Risk) : bool :=
  match a, b with
  | high, high | medium, medium | low, low => true
  | _, _ => false
  end.

Definition with_risk (r : Risk) (l : list DetailedDocumentAnalysis.Clause)
  : list DetailedDocumentAnalysis.Clause :=
  filter (fun c => risk_eqb (DetailedDocumentAnalysis.risk c) r) l.

(** "Sorted by a fixed risk order (high, medium, low), stable". *)
Definition by_risk (l : list DetailedDocumentAnalysis.Clause)
  : list DetailedDocumentAnalysis.Clause :=
  with_risk high l ++ with_risk medium l ++ with_risk low l.

(** A multiple of one half, as a number: the values
    [pages * 2 + clauses * 1.5] takes on integer counts. *)
Definition halves (k : Z) : number := Fin (Qmake k 2).

(** [S / (S + 50)] as an exact rational, at [S = k / 2]. *)
Definition ratio (k : Z) : Q := (inject_Z k / inject_Z (k + 100))%Q.

(** The rational [q] is a binary64 value. *)
Definition representable (q : Q) : Prop := round64 q = Fin (Qred q).

(** "timeSavedHours is monotonically increasing in S and bounded in
    [1, 2) for S >= 0". *)
Definition time_saved_monotone_bounded : Prop :=
  forall s1 s2 : Q,
    representable s1 -> representable s2 ->
    (0 <= s1)%Q -> (s1 <= s2)%Q ->
    le (of_Z 1) (DocumentUpload.timeSavedHours (Fin s1)) /\
    le (DocumentUpload.timeSavedHours (Fin s1))
       (DocumentUpload.timeSavedHours (Fin s2)) /\
    lt (DocumentUpload.timeSavedHours (Fin s2)) (of_Z 2).

(** "For fixed totalClauses, increasing pageCount never decreases the
    computed timeSavedHours". *)
Definition page_count_monotone : Prop :=
  forall pages1 pages2 clauses : Z,
    (0 <= pages1 <= pages2)%Z -> (0 <= clauses)%Z ->
    representable (inject_Z pages1) -> representable (inject_Z pages2) ->
    representable (inject_Z clauses) ->
    le (DocumentUpload.timeSavedHours
          (DocumentUpload.S (of_Z pages1) (of_Z clauses)))
       (DocumentUpload.timeSavedHours
          (DocumentUpload.S (of_Z pages2) (of_Z clauses))).

End Spec.

(* ================================================================== *)
(** * Sample payloads and clauses *)
(* ================================================================== *)

Module Samples.
Import JsNumber.
Local Open Scope string_scope.

Definition clause_high : ClauseAssessment :=
  {| clause_text :=
       Some "The Supplier may terminate at any time without notice.";
     risk_level := "high";
     reasoning := "One-sided termination right";
     potential_issues := Some ["No notice period"] |}.

Definition clause_medium : ClauseAssessment :=
  {| clause_text := Some "Invoices are payable within 90 days.";
     risk_level := "medium";
     reasoning := "";
     potential_issues := Some [] |}.

Definition clause_low : ClauseAssessment :=
  {| clause_text :=
       Some "This agreement is governed by the laws of England.";
     risk_level := "low";
     reasoning := "Standard governing-law clause";
     potential_issues := Some [] |}.

Definition summary (h m l t : option number) : Payload.RiskSummary :=
  {| Payload.high_risk_clauses := h; Payload.medium_risk_clauses := m;
     Payload.low_risk_clauses := l; Payload.total_clauses_assessed := t |}.

Definition assessment (cs : list ClauseAssessment) : Payload.RiskAssessment :=
  {| Payload.document_name := Some "lease.pdf";
     Payload.clause_assessments := Some cs;
     Payload.recommendations := None |}.

(** [{}] *)
Definition empty : Payload.t :=
  {| Payload.risk_assessment := None; Payload.risk_summary := None;
     Payload.page_count := None; Payload.gcs_uri := None |}.

(** One clause of each level, reported as such, on 12 pages. *)
Definition full : Payload.t :=
  {| Payload.risk_assessment :=
       Some (assessment [clause_high; clause_medium; clause_low]);
     Payload.risk_summary :=
       Some (summary (Some (of_Z 1)) (Some (of_Z 1)) (Some (of_Z 1))
                     (Some (of_Z 3)));
     Payload.page_count := Some (of_Z 12);
     Payload.gcs_uri := Some "gs://bucket/lease.pdf" |}.

(** A single high-risk clause, with a summary that says so. *)
Definition one_high : Payload.t :=
  {| Payload.risk_assessment := Some (assessment [clause_high]);
     Payload.risk_summary :=
       Some (summary (Some (of_Z 1)) (Some (of_Z 0)) (Some (of_Z 0))
                     (Some (of_Z 1)));
     Payload.page_count := Some (of_Z 3);
     Payload.gcs_uri := None |}.

(** A summary that reports one high-risk clause and no total. *)
Definition high_without_total : Payload.t :=
  {| Payload.risk_assessment := None;
     Payload.risk_summary := Some (summary (Some (of_Z 1)) None None None);
     Payload.page_count := None; Payload.gcs_uri := None |}.

(** Two assessed clauses and no summary. *)
Definition clauses_without_summary : Payload.t :=
  {| Payload.risk_assessment := Some (assessment [clause_high; clause_low]);
     Payload.risk_summary := None;
     Payload.page_count := None; Payload.gcs_uri := None |}.

(** A negative page count. *)
Definition negative_pages : Payload.t :=
  {| Payload.risk_assessment := None; Payload.risk_summary := None;
     Payload.page_count := Some (of_Z (-5)); Payload.gcs_uri := None |}.

Definition zero_pages : Payload.t :=
  {| Payload.risk_assessment := None; Payload.risk_summary := None;
     Payload.page_count := Some (of_Z 0); Payload.gcs_uri := None |}.

End Samples.

Module SearchSamples.
Import DetailedDocumentAnalysis.
Local Open Scope string_scope.

Definition clause (t : string) (r : Risk) (s i : string) : Clause :=
  {| title := t; risk := r; summary := s; impact := i;
     fullText := "No full text available";
     marketComparison :=
       "Analysis based on industry standards and best practices";
     recommendations := [];
     riskDetails := s |}.

Definition payment : Clause :=
  clause "Clause 1" low "Payment within 30 days" "No impact details available".

Definition termination : Clause :=
  clause "Clause 2" medium "Termination for convenience" "Short notice".

Definition liability : Clause :=
  clause "Clause 3" high "Unlimited Liability of the customer"
         "Uncapped exposure".

Definition clauses : list Clause := [payment; termination; liability].


(** A query of one no-break space (U+00A0). *)
Definition nbsp_query : string := String (ascii_of_nat 160) "".

(** The word "RESILIATION" with E acute (U+00C9) for its first E, in
    capitals and in small letters (U+00E9), and a clause that has it in
    capitals. *)
Definition resiliation_upper : string :=
  "R" ++ String (ascii_of_nat 201) "SILIATION".

Definition resiliation_lower : string :=
  "r" ++ String (ascii_of_nat 233) "siliation".

Definition resiliation : Clause :=
  clause "Clause 2" medium resiliation_upper "Short notice".

End SearchSamples.

(* ================================================================== *)
(** * The views that read the normalised record *)
(* ================================================================== *)

Module JsLib.
Import JsNumber.
Local Open Scope string_scope.

(** An array length or index as a number. *)
Definition of_nat (n : nat) : number := of_Z (Z.of_nat n).

(** [x === 0] on numbers. *)
Definition is_zero (x : number) : bool :=
  match x with
  | Fin q => Qeq_bool q 0
  | _ => false
  end.

(** [s.substring(0, n)] *)
Fixpoint take (n : nat) (s : string) : string :=
  match n, s with
  | Datatypes.S k, String c r => String c (take k r)
  | _, _ => EmptyString
  end.

End JsLib.

(** ** The Dashboard view's derived values (beside its
    [calculateTimeSaved])

    [analysisData] is the context's value: [None] is [null], before any
    upload has succeeded. *)

Module DashboardView.
Import JsNumber JsLib.
Local Open Scope string_scope.

(** The three zero buckets used when there is no [risk_data]. *)
Definition defaultRiskData : list RiskData.t :=
  [ {| RiskData.name := "High"; RiskData.value := 0;
       RiskData.color := "#ef4444"; RiskData.impacts := [] |};
    {| RiskData.name := "Medium"; RiskData.value := 0;
       RiskData.color := "#eab308"; RiskData.impacts := [] |};
    {| RiskData.name := "Low"; RiskData.value := 0;
       RiskData.color := "#22c55e"; RiskData.impacts := [] |} ].

(** [analysisData?.risk_data || [...]]; the stored [risk_data] is an
    array, which is truthy also when empty. *)
Definition riskData (analysisData : option DocumentAnalysisData)
  : list RiskData.t :=
  match analysisData with
  | Some d => risk_data d
  | None => defaultRiskData
  end.

(** [items.reduce((sum, item) => sum + item.value, 0)] *)
Definition sumValues (items : list RiskData.t) : number :=
  fold_left (fun sum item => (sum + of_nat (RiskData.value item))%js)
            items (of_Z 0).

Definition totalImpacts (analysisData : option DocumentAnalysisData)
  : number :=
  sumValues (riskData analysisData).

(** [analysisData?.total_clauses || totalImpacts] *)
Definition totalClauses (analysisData : option DocumentAnalysisData)
  : number :=
  match analysisData with
  | Some d => num_or (Some (total_clauses d)) (totalImpacts analysisData)
  | None => totalImpacts analysisData
  end.

(** [analysisData?.flagged_clauses || riskData.filter(High or
    Medium).reduce(...)] *)
Definition flaggedClauses (analysisData : option DocumentAnalysisData)
  : number :=
  let fromBuckets :=
    sumValues
      (filter (fun item => String.eqb (RiskData.name item) "High"
                           || String.eqb (RiskData.name item) "Medium")
              (riskData analysisData)) in
  match analysisData with
  | Some d => num_or (Some (flagged_clauses d)) fromBuckets
  | None => fromBuckets
  end.

(** [analysisData?.page_count || 24] *)
Definition pageCount (analysisData : option DocumentAnalysisData) : number :=
  match analysisData with
  | Some d => num_or (Some (page_count d)) (of_Z 24)
  | None => of_Z 24
  end.

(** [analysisData ? calculateTimeSaved(pageCount, totalClauses) : '2.5h'] *)
Definition timeSaved (analysisData : option DocumentAnalysisData)
  : option string :=
  match analysisData with
  | Some _ =>
      Dashboard.calculateTimeSaved (pageCount analysisData)
                                   (totalClauses analysisData)
  | None => Some "2.5h"
  end.

(** [analysisData?.document_name || 'Software Development Agreement'] *)
Definition documentName (analysisData : option DocumentAnalysisData)
  : string :=
  match analysisData with
  | Some d => str_or (Some (document_name d)) "Software Development Agreement"
  | None => "Software Development Agreement"
  end.

(** [documentName.replace(/\.[^/.]+$/, '')].  The pattern matches a dot
    followed, up to the end of the string, by one or more characters
    that are neither a slash nor a dot; [stripped s] is [s] without the
    match, [None] when the pattern matches nowhere.  What follows a
    matching dot has no dot, so at most one position matches. *)
Definition ext_char (c : ascii) : bool :=
  negb (Ascii.eqb c "/" || Ascii.eqb c ".").

Fixpoint ext_chars (s : string) : bool :=
  match s with
  | EmptyString => true
  | String c r => ext_char c && ext_chars r
  end.

Fixpoint stripped (s : string) : option string :=
  match s with
  | EmptyString => None
  | String c r =>
      if Ascii.eqb c "."
         && match r with EmptyString => false | _ => true end
         && ext_chars r
      then Some EmptyString
      else match stripped r with
           | Some r' => Some (String c r')
           | None => None
           end
  end.

Definition nameWithoutExt (documentName : string) : string :=
  match stripped documentName with
  | Some s => s
  | None => documentName
  end.

(** The "Document ID" shown:
    [nameWithoutExt.length > 20 ? `${nameWithoutExt.substring(0, 20)}...`
     : nameWithoutExt] *)
Definition documentId (documentName : string) : string :=
  let nameWithoutExt := nameWithoutExt documentName in
  if (20 <? String.length nameWithoutExt)%nat
  then take 20 nameWithoutExt ++ "..."
  else nameWithoutExt.

End DashboardView.

(** ** The risk pie chart ([RiskPieChart], given the view's [riskData]) *)

Module RiskPieChart.
Import JsNumber JsLib.

(** [data.reduce((sum, item) => sum + item.value, 0)]; a sum of array
    lengths that starts at [0], so never [-0]. *)
Definition totalImpacts (data : list RiskData.t) : number :=
  DashboardView.sumValues data.

(** The chart is drawn unless
    [!data || data.length === 0 || totalImpacts === 0], in which case
    "No risk data available" is shown instead. *)
Definition showsChart (data : list RiskData.t) : bool :=
  negb ((List.length data =? 0)%nat || is_zero (totalImpacts data)).

(** The tooltip's [(data.value / totalImpacts) * 100], before
    [toFixed(1)]. *)
Definition percentOfTotal (data : list RiskData.t) (item : RiskData.t)
  : number :=
  (of_nat (RiskData.value item) / totalImpacts data * of_Z 100)%js.

End RiskPieChart.

(** ** The clause objects built from the stored record

    Both the detailed analysis view and the counter-proposal view build
    objects of their [Clause] interface from
    [analysisData.risk_assessment.clause_assessments], which
    [processResponseData] keeps as the backend sent it.  [risk] is a
    string here: it is [clause.risk_level] under a cast that checks
    nothing. *)

Module ClauseObject.
Record t : Type := {
  title : string;
  risk : string;
  summary : string;
  impact : string;
  fullText : string;
  marketComparison : string;
  recommendations : list string;
  riskDetails : string
}.
End ClauseObject.

Module DetailedView.
Import JsLib.
Local Open Scope string_scope.

(** [convertBackendDataToClauses] of the detailed analysis view.  The
    stored [risk_assessment] is an object, so the first guard fails only
    for [analysisData = null].  Every field of an assessment is used
    through [|| default], which reads an absent field like an empty
    one; [potential_issues?.join(', ')] is [undefined] for an absent
    list. *)
Definition convertBackendDataToClauses
    (analysisData : option DocumentAnalysisData) : list ClauseObject.t :=
  match analysisData with
  | None => []
  | Some d =>
      let riskAssessment := Assessment.original (risk_assessment d) in
      let clauseAssessments :=
        list_or (Payload.clause_assessments riskAssessment) in
      if (List.length clauseAssessments =? 0)%nat then []
      else
        mapi (fun clause index =>
          {| ClauseObject.title := "Clause " ++ nat_str (index + 1);
             ClauseObject.risk := str_or (Some (risk_level clause)) "medium";
             ClauseObject.summary :=
               str_or (Some (reasoning clause)) "No summary available";
             ClauseObject.impact :=
               str_or (option_map (String.concat ", ")
                                  (potential_issues clause))
                      "No impact details available";
             ClauseObject.fullText :=
               str_or (clause_text clause) "No full text available";
             ClauseObject.marketComparison :=
               "Analysis based on industry standards and best practices";
             ClauseObject.recommendations :=
               list_or (Payload.recommendations riskAssessment);
             ClauseObject.riskDetails :=
               str_or (Some (reasoning clause))
                      "No risk details available" |})
          clauseAssessments
  end.

(** The three values of the [risk] field's declared type. *)
Definition risk_of (risk : string) : option Risk :=
  if String.eqb risk "high" then Some high
  else if String.eqb risk "medium" then Some medium
  else if String.eqb risk "low" then Some low
  else None.

(** A clause object as a value of the [Clause] interface, when its
    [risk] is one the interface declares. *)
Definition typed (c : ClauseObject.t)
  : option DetailedDocumentAnalysis.Clause :=
  match risk_of (ClauseObject.risk c) with
  | Some r =>
      Some {| DetailedDocumentAnalysis.title := ClauseObject.title c;
              DetailedDocumentAnalysis.risk := r;
              DetailedDocumentAnalysis.summary := ClauseObject.summary c;
              DetailedDocumentAnalysis.impact := ClauseObject.impact c;
              DetailedDocumentAnalysis.fullText := ClauseObject.fullText c;
              DetailedDocumentAnalysis.marketComparison :=
                ClauseObject.marketComparison c;
              DetailedDocumentAnalysis.recommendations :=
                ClauseObject.recommendations c;
              DetailedDocumentAnalysis.riskDetails :=
                ClauseObject.riskDetails c |}
  | None => None
  end.

(** [clauses.filter(c => c.risk === level).length], the value the view
    computes for a level. *)
Definition countRisk (level : string) (clauses : list ClauseObject.t) : nat :=
  List.length
    (filter (fun c => String.eqb (ClauseObject.risk c) level) clauses).

End DetailedView.

(** ** The counter-proposal view *)

Module CounterProposal.
Import JsLib.
Local Open Scope string_scope.

(** [clause.clause_text?.substring(0, 150) + '...' || 'No summary
    available']: [+] binds tighter than [||], and an absent text gives
    ["undefined..."]. *)
Definition summaryOf (clause_text : option string) : string :=
  str_or (Some (match clause_text with
                | Some text => take 150 text
                | None => "undefined"
                end ++ "..."))
         "No summary available".

(** [clause.potential_issues || ['No specific recommendations
    available']]; an empty array is truthy. *)
Definition recommendationsOf (potential_issues : option (list string))
  : list string :=
  match potential_issues with
  | Some l => l
  | None => ["No specific recommendations available"]
  end.

(** [convertBackendDataToClauses] of the counter-proposal view.  An
    empty [clause_assessments] array passes the guard and maps to [[]].
    [risk] is the assessment's [risk_level] itself; the empty string
    stands for an absent one, which like it equals neither ['high'] nor
    ['medium']. *)
Definition convertBackendDataToClauses
    (analysisData : option DocumentAnalysisData) : list ClauseObject.t :=
  match analysisData with
  | None => []
  | Some d =>
      match Payload.clause_assessments
              (Assessment.original (risk_assessment d)) with
      | None => []
      | Some clause_assessments =>
          mapi (fun clause index =>
            {| ClauseObject.title := "Clause " ++ nat_str (index + 1);
               ClauseObject.risk := risk_level clause;
               ClauseObject.summary := summaryOf (clause_text clause);
               ClauseObject.impact :=
                 str_or (Some (reasoning clause))
                        "No impact details available";
               ClauseObject.fullText :=
                 str_or (clause_text clause) "No full text available";
               ClauseObject.marketComparison :=
                 "Market comparison not available from backend";
               ClauseObject.recommendations :=
                 recommendationsOf (potential_issues clause);
               ClauseObject.riskDetails :=
                 str_or (Some (reasoning clause))
                        "No risk details available" |})
            clause_assessments
      end
  end.

(** [allClauses.filter(clause => clause.risk === 'high' ||
    clause.risk === 'medium')] *)
Definition clauses (analysisData : option DocumentAnalysisData)
  : list ClauseObject.t :=
  let allClauses := convertBackendDataToClauses analysisData in
  filter (fun clause => String.eqb (ClauseObject.risk clause) "high"
                        || String.eqb (ClauseObject.risk clause) "medium")
         allClauses.

(** [selectedClauses] is a [Set<number>]: its elements in insertion
    order, each once. *)
Definition has (s : list nat) (index : nat) : bool :=
  existsb (Nat.eqb index) s.

Definition delete (s : list nat) (index : nat) : list nat :=
  filter (fun j => negb (j =? index)%nat) s.

Definition add (s : list nat) (index : nat) : list nat :=
  if has s index then s else s ++ [index].

(** The set handed to [setSelectedClauses]. *)
Definition toggleClauseSelection (selectedClauses : list nat) (index : nat)
  : list nat :=
  let newSelection := selectedClauses in
  if has newSelection index then delete newSelection index
  else add newSelection index.

End CounterProposal.

(** A stored record with two medium clauses, the second without
    [clause_text] and [potential_issues]. *)
Module ViewSamples.
Local Open Scope string_scope.




End ViewSamples.

(* ================================================================== *)
(** * The upload handlers *)
(* ================================================================== *)

(** The handlers of the upload component as transitions of its state
    while it is mounted ([isDragOver], [uploadStatus]) and of the
    context's ([analysisData], [isLoading]; nothing else in the
    application calls the context's setters).  A handler, and each
    stretch of [handleFileUpload] between two [await]s, runs to its end
    before anything else does.  [pending] is not a variable of the
    program: it lists the calls of [handleFileUpload] whose [fetch] has
    not settled yet, numbered in the order they started.  Navigation,
    the [onUpload] callback (the page's [handleDocumentUpload], which
    logs and schedules a navigation), the reset of the file input and
    the logging are left out. *)

Module UploadFlow.
Local Open Scope string_scope.

Inductive UploadStatus : Type := idle | uploading | success | error.

Record File : Type := { name : string; type : string }.

Record State : Type := {
  isDragOver : bool;
  uploadStatus : UploadStatus;
  analysisData : option DocumentAnalysisData;
  isLoading : bool;
  pending : list (nat * File);
  started : nat
}.

(** How the awaited part of [handleFileUpload] ends: [response.ok] with
    a body that parses to a payload, [!response.ok], or an exception
    before [setAnalysisData] ([fetch] or [response.json()] rejects, or
    the body is [null] and reading it throws), which the [catch]
    takes. *)
Inductive Outcome : Type :=
| ok (responseData : Payload.t)
| notOk
| thrown.

Inductive Event : Type :=
| dragOver
| dragLeave
| drop (files : list File)
| fileSelect (files : list File)
| settled (request : nat) (outcome : Outcome) (now : string)
| timeout.

(** The mounted component and the provider, before any event. *)
Definition initial : State :=
  {| isDragOver := false; uploadStatus := idle; analysisData := None;
     isLoading := false; pending := []; started := 0 |}.

Definition setIsDragOver (v : bool) (st : State) : State :=
  {| isDragOver := v; uploadStatus := uploadStatus st;
     analysisData := analysisData st; isLoading := isLoading st;
     pending := pending st; started := started st |}.

Definition setUploadStatus (v : UploadStatus) (st : State) : State :=
  {| isDragOver := isDragOver st; uploadStatus := v;
     analysisData := analysisData st; isLoading := isLoading st;
     pending := pending st; started := started st |}.

Definition setAnalysisData (v : DocumentAnalysisData) (st : State) : State :=
  {| isDragOver := isDragOver st; uploadStatus := uploadStatus st;
     analysisData := Some v; isLoading := isLoading st;
     pending := pending st; started := started st |}.

Definition setIsLoading (v : bool) (st : State) : State :=
  {| isDragOver := isDragOver st; uploadStatus := uploadStatus st;
     analysisData := analysisData st; isLoading := v;
     pending := pending st; started := started st |}.

(** [handleFileUpload] up to its [await fetch(...)]. *)
Definition handleFileUpload (file : File) (st : State) : State :=
  let st := setUploadStatus uploading st in
  let st := setIsLoading true st in
  {| isDragOver := isDragOver st; uploadStatus := uploadStatus st;
     analysisData := analysisData st; isLoading := isLoading st;
     pending := pending st ++ [(started st, file)];
     started := Datatypes.S (started st) |}.

(** [handleFileUpload] after the [await]: the [try] branch taken, then
    [finally]. *)
Definition resume (file : File) (outcome : Outcome) (now : string)
    (st : State) : State :=
  let st :=
    match outcome with
    | ok responseData =>
        let processedData :=
          processResponseData responseData (name file) now in
        let st := setAnalysisData processedData st in
        setUploadStatus success st
    | notOk => setUploadStatus error st
    | thrown => setUploadStatus error st
    end in
  setIsLoading false st.

Definition handleDrop (files : list File) (st : State) : State :=
  let st := setIsDragOver false st in
  match files with
  | file :: _ =>
      if String.eqb (type file) "application/pdf"
      then handleFileUpload file st
      else setUploadStatus error st
  | [] => st
  end.

Definition handleFileSelect (files : list File) (st : State) : State :=
  match files with
  | file :: _ =>
      if String.eqb (type file) "application/pdf"
      then handleFileUpload file st
      else setUploadStatus error st
  | [] => st
  end.

Definition request_of (request : nat) (st : State) : option File :=
  match find (fun p => (fst p =? request)%nat) (pending st) with
  | Some p => Some (snd p)
  | None => None
  end.

Definition forget (request : nat) (st : State) : State :=
  {| isDragOver := isDragOver st; uploadStatus := uploadStatus st;
     analysisData := analysisData st; isLoading := isLoading st;
     pending := filter (fun p => negb (fst p =? request)%nat) (pending st);
     started := started st |}.

(** One event.  [settled] is the end of the wait of a pending call, and
    nothing for a call that is not pending; [timeout] is the callback of
    one of the [setTimeout]s, each of which sets the status to "idle". *)
Definition step (st : State) (e : Event) : State :=
  match e with
  | dragOver => setIsDragOver true st
  | dragLeave => setIsDragOver false st
  | drop files => handleDrop files st
  | fileSelect files => handleFileSelect files st
  | settled request outcome now =>
      match request_of request st with
      | Some file => resume file outcome now (forget request st)
      | None => st
      end
  | timeout => setUploadStatus idle st
  end.

Definition run (events : list Event) : State :=
  fold_left step events initial.

End UploadFlow.

(* ================================================================== *)
(** * Further vocabulary *)
(* ================================================================== *)

Module Terms.
Import JsNumber JsString DetailedDocumentAnalysis.
Local Open Scope string_scope.

(** A file offered for upload by one of the events: the first file of
    a drop or of a selection. *)
Definition offered (events : list UploadFlow.Event) (file : UploadFlow.File)
  : Prop :=
  exists files,
    In (UploadFlow.drop (file :: files)) events \/
    In (UploadFlow.fileSelect (file :: files)) events.

(** The files whose upload the events start, in the order of the
    events: the first file of each drop or selection whose type is
    "application/pdf".  The upload of the file at position [n] is
    request [n]. *)
Definition uploads (events : list UploadFlow.Event)
  : list UploadFlow.File :=
  flat_map (fun e =>
              match e with
              | UploadFlow.drop (file :: _)
              | UploadFlow.fileSelect (file :: _) =>
                  if String.eqb (UploadFlow.type file) "application/pdf"
                  then [file] else []
              | _ => []
              end) events.

(** What the upload handlers keep true of the state reached by
    [events]: the requests pending and their number are those of the
    uploads started, the stored record comes from the successful
    response to one of them, the loading flag is set only while a
    request is pending, and while the status is "uploading" the request
    started last is pending. *)
Record upload_invariant (events : list UploadFlow.Event)
    (st : UploadFlow.State) : Prop := {
  inv_started : UploadFlow.started st = List.length (uploads events);
  inv_pending :
    forall p, In p (UploadFlow.pending st) ->
              nth_error (uploads events) (fst p) = Some (snd p);
  inv_data :
    UploadFlow.analysisData st = None \/
    exists request responseData file now,
      In (UploadFlow.settled request (UploadFlow.ok responseData) now)
         events /\
      nth_error (uploads events) request = Some file /\
      UploadFlow.analysisData st
      = Some (processResponseData responseData (UploadFlow.name file) now);
  inv_loading :
    UploadFlow.isLoading st = true -> UploadFlow.pending st <> [];
  inv_uploading :
    UploadFlow.uploadStatus st = UploadFlow.uploading ->
    In (Nat.pred (UploadFlow.started st))
       (map fst (UploadFlow.pending st))
}.

(** The clause assessments a stored record holds. *)
Definition stored_clauses (d : DocumentAnalysisData)
  : list ClauseAssessment :=
  list_or (Payload.clause_assessments
             (Assessment.original (risk_assessment d))).

(** An optional payload number that is absent (read as [z = 0]) or the
    integer [z]. *)
Definition whole (v : option number) (z : Z) : Prop :=
  v = Some (of_Z z) \/ (v = None /\ z = 0%Z).

(** A string of white space only. *)
Fixpoint all_space (s : string) : bool :=
  match s with
  | EmptyString => true
  | String c r => is_space c && all_space r
  end.

(** The test [performSemanticSearch] filters with for a query. *)
Definition keeps (query : string) (clause : Clause) : bool :=
  existsb (fun term => includes (searchableText clause) term)
          (searchTerms query).

End Terms.

(* ================================================================== *)
(** * Rounding to binary64: monotonicity and exact cases *)
(* ================================================================== *)

Module NumberFacts.
Import JsNumber.
Local Open Scope Q_scope.

Lemma pow2_pos e : 0 < pow2 e.
Proof. apply Qpower_0_lt. reflexivity. Qed.

Lemma pow2_add a b : pow2 (a + b) == pow2 a * pow2 b.
Proof. apply Qpower_plus. discriminate. Qed.

Lemma pow2_le a b : (a <= b)%Z -> pow2 a <= pow2 b.
Proof. intros H. apply Qpower_le_compat_l; [exact H | discriminate]. Qed.

Lemma pow2_lt_inv a b : pow2 a < pow2 b -> (a < b)%Z.
Proof. intros H. apply (Qpower_lt_compat_l_inv 2); [exact H | reflexivity]. Qed.

Lemma pow2_Z n : (0 <= n)%Z -> pow2 n == inject_Z (2 ^ n).
Proof.
  intros H. unfold pow2. rewrite Zpower_Qpower by exact H. reflexivity.
Qed.

Lemma pow2_split a b : pow2 a == pow2 (a - b) * pow2 b.
Proof.
  rewrite <- pow2_add. replace (a - b + b)%Z with a by ring. reflexivity.
Qed.

(** rne *)
Lemma rne_comp x y : x == y -> rne x = rne y.
Proof.
  intros H. unfold rne.
  assert (Hf : Qfloor x = Qfloor y) by (rewrite H; reflexivity).
  rewrite Hf.
  assert (Hc : Qcompare (x - inject_Z (Qfloor y)) (1 # 2)
               = Qcompare (y - inject_Z (Qfloor y)) (1 # 2)).
  { apply Qcompare_comp; [rewrite H; reflexivity | reflexivity]. }
  rewrite Hc. reflexivity.
Qed.

Lemma rne_Z z : rne (inject_Z z) = z.
Proof.
  unfold rne. rewrite Qfloor_Z.
  assert (H : Qcompare (inject_Z z - inject_Z z) (1 # 2) = Lt).
  { apply Qlt_alt. unfold Qminus. rewrite Qplus_opp_r. reflexivity. }
  rewrite H. reflexivity.
Qed.

Lemma rne_range x : (Qfloor x <= rne x <= Qfloor x + 1)%Z.
Proof.
  unfold rne. destruct (Qcompare _ _); [destruct (Z.even _) | |]; lia.
Qed.

Lemma rne_mono x y : x <= y -> (rne x <= rne y)%Z.
Proof.
  intros H.
  pose proof (Qfloor_resp_le _ _ H) as Hk.
  destruct (Z.eq_dec (Qfloor x) (Qfloor y)) as [E | NE].
  - unfold rne. rewrite E.
    destruct (Qcompare_spec (x - inject_Z (Qfloor y)) (1 # 2))
      as [Hx | Hx | Hx];
    destruct (Qcompare_spec (y - inject_Z (Qfloor y)) (1 # 2))
      as [Hy | Hy | Hy];
    try destruct (Z.even (Qfloor y)); try lia; exfalso; lra.
  - pose proof (rne_range x). pose proof (rne_range y). lia.
Qed.

Lemma rne_le_Z x z : x <= inject_Z z -> (rne x <= z)%Z.
Proof. intros H. rewrite <- (rne_Z z). apply rne_mono, H. Qed.

Lemma rne_ge_Z x z : inject_Z z <= x -> (z <= rne x)%Z.
Proof. intros H. rewrite <- (rne_Z z). apply rne_mono, H. Qed.


(** ilog2 *)
Lemma ilog2_spec a : 0 < a -> pow2 (ilog2 a) <= a /\ a < pow2 (ilog2 a + 1).
Proof.
  intros Ha. destruct a as [n d].
  assert (Hn : (0 < n)%Z).
  { unfold Qlt in Ha. simpl in Ha. lia. }
  unfold ilog2. simpl Qnum. simpl Qden.
  set (ln := Z.log2 n). set (ld := Z.log2 (Z.pos d)).
  destruct (Z.log2_spec n Hn) as [Hn1 Hn2]. fold ln in Hn1, Hn2.
  destruct (Z.log2_spec (Z.pos d) (Pos2Z.is_pos d)) as [Hd1 Hd2].
  fold ld in Hd1, Hd2.
  assert (Hln : (0 <= ln)%Z) by apply Z.log2_nonneg.
  assert (Hld : (0 <= ld)%Z) by apply Z.log2_nonneg.
  assert (Had : (n # d) * inject_Z (Z.pos d) == inject_Z n).
  { rewrite (Qmake_Qdiv n d). field. discriminate. }
  assert (Hup : n # d < pow2 (ln - ld + 1)).
  { apply (Qmult_lt_r _ _ (pow2 ld)); [apply pow2_pos|].
    rewrite <- pow2_add. replace (ln - ld + 1 + ld)%Z with (ln + 1)%Z by ring.
    apply Qle_lt_trans with (inject_Z n).
    - rewrite <- Had. apply Qmult_le_l; [exact Ha|].
      rewrite pow2_Z by exact Hld. rewrite <- Zle_Qle. exact Hd1.
    - rewrite pow2_Z by lia. rewrite <- Zlt_Qlt.
      replace (ln + 1)%Z with (Z.succ ln) by lia. exact Hn2. }
  assert (Hlo : pow2 (ln - ld - 1) < n # d).
  { apply (Qmult_lt_r _ _ (pow2 (ld + 1))); [apply pow2_pos|].
    rewrite <- pow2_add. replace (ln - ld - 1 + (ld + 1))%Z with ln by ring.
    apply Qle_lt_trans with (inject_Z n).
    - rewrite pow2_Z by exact Hln. rewrite <- Zle_Qle. exact Hn1.
    - rewrite <- Had. apply Qmult_lt_l; [exact Ha|].
      rewrite pow2_Z by lia. rewrite <- Zlt_Qlt.
      replace (ld + 1)%Z with (Z.succ ld) by lia. exact Hd2. }
  destruct (Qle_bool (pow2 (ln - ld)) (n # d)) eqn:E.
  - apply Qle_bool_iff in E. split; assumption.
  - assert (Hlt : n # d < pow2 (ln - ld)).
    { apply Qnot_le_lt. intros H. apply Qle_bool_iff in H. congruence. }
    replace (ln - ld - 1 + 1)%Z with (ln - ld)%Z by ring.
    split; [apply Qlt_le_weak; exact Hlo | exact Hlt].
Qed.

Lemma ilog2_mono a b : 0 < a -> a <= b -> (ilog2 a <= ilog2 b)%Z.
Proof.
  intros Ha Hab.
  assert (Hb : 0 < b) by (apply Qlt_le_trans with a; assumption).
  destruct (ilog2_spec Ha) as [Ha1 _]. destruct (ilog2_spec Hb) as [_ Hb2].
  assert (H : pow2 (ilog2 a) < pow2 (ilog2 b + 1)).
  { apply Qle_lt_trans with a; [exact Ha1|].
    apply Qle_lt_trans with b; assumption. }
  apply pow2_lt_inv in H. lia.
Qed.

Lemma ulp_pos a : 0 < ulp a.
Proof. apply pow2_pos. Qed.

(** A positive rational below 2^(e+1), rounded at exponent e, stays at or
    below 2^(e+1); one from 2^e on stays at or above 2^e. *)
Lemma scaled_rne_le a e :
  a <= pow2 (e + 1) ->
  inject_Z (rne (a / pow2 (e - 52))) * pow2 (e - 52) <= pow2 (e + 1).
Proof.
  intros H.
  assert (Hs : pow2 (e + 1) == inject_Z (2 ^ 53) * pow2 (e - 52)).
  { rewrite <- pow2_Z by lia. rewrite <- pow2_add.
    replace (53 + (e - 52))%Z with (e + 1)%Z by ring. reflexivity. }
  rewrite Hs. apply Qmult_le_compat_r; [|apply Qlt_le_weak, pow2_pos].
  rewrite <- Zle_Qle. apply rne_le_Z.
  apply Qle_shift_div_r; [apply pow2_pos|]. rewrite <- Hs. exact H.
Qed.

Lemma scaled_rne_ge a e :
  pow2 e <= a ->
  pow2 e <= inject_Z (rne (a / pow2 (e - 52))) * pow2 (e - 52).
Proof.
  intros H.
  assert (Hs : pow2 e == inject_Z (2 ^ 52) * pow2 (e - 52)).
  { rewrite <- pow2_Z by lia. rewrite <- pow2_add.
    replace (52 + (e - 52))%Z with e by ring. reflexivity. }
  rewrite Hs at 1. apply Qmult_le_compat_r; [|apply Qlt_le_weak, pow2_pos].
  rewrite <- Zle_Qle. apply rne_ge_Z.
  apply Qle_shift_div_l; [apply pow2_pos|]. rewrite <- Hs. exact H.
Qed.

Lemma round_mag_mono a b : 0 < a -> a <= b -> round_mag a <= round_mag b.
Proof.
  intros Ha Hab.
  assert (Hb : 0 < b) by (apply Qlt_le_trans with a; assumption).
  pose proof (ilog2_mono Ha Hab) as Hlog.
  unfold round_mag, ulp, prec, emin.
  replace (53 - 1)%Z with 52%Z by reflexivity.
  set (ea := Z.max (ilog2 a) (-1022)). set (eb := Z.max (ilog2 b) (-1022)).
  assert (Hab' : (ea <= eb)%Z) by (unfold ea, eb; lia).
  destruct (Z.eq_dec ea eb) as [E | NE].
  - rewrite E. apply Qmult_le_compat_r; [|apply Qlt_le_weak, pow2_pos].
    rewrite <- Zle_Qle. apply rne_mono.
    apply Qmult_le_compat_r; [exact Hab|].
    apply Qlt_le_weak, Qinv_lt_0_compat, pow2_pos.
  - assert (Heb : eb = ilog2 b) by (unfold ea, eb in *; lia).
    apply Qle_trans with (pow2 (ea + 1)).
    + apply scaled_rne_le. apply Qlt_le_weak.
      apply Qlt_le_trans with (pow2 (ilog2 a + 1)).
      * apply (ilog2_spec Ha).
      * apply pow2_le. unfold ea. lia.
    + apply Qle_trans with (pow2 eb).
      * apply pow2_le. lia.
      * apply scaled_rne_ge. rewrite Heb. apply (ilog2_spec Hb).
Qed.

Lemma round_mag_nonneg a : 0 < a -> 0 <= round_mag a.
Proof.
  intros Ha. unfold round_mag.
  apply Qmult_le_0_compat; [|apply Qlt_le_weak, ulp_pos].
  replace 0 with (inject_Z 0) by reflexivity. rewrite <- Zle_Qle.
  apply rne_ge_Z. simpl.
  apply Qlt_le_weak. apply Qlt_shift_div_l; [apply ulp_pos|].
  rewrite Qmult_0_l. exact Ha.
Qed.


(** Rounding a non-negative rational is monotone. *)
Lemma round_pos_mono a b : 0 < a -> a <= b -> le (round_pos a) (round_pos b).
Proof.
  intros Ha Hab. pose proof (round_mag_mono Ha Hab) as Hm.
  unfold round_pos.
  destruct (Qle_bool (pow2 emax) (round_mag b)) eqn:Eb.
  - destruct (Qle_bool (pow2 emax) (round_mag a)); exact I.
  - destruct (Qle_bool (pow2 emax) (round_mag a)) eqn:Ea.
    + apply Qle_bool_iff in Ea.
      assert (H : Qle_bool (pow2 emax) (round_mag b) = true).
      { apply Qle_bool_iff. apply Qle_trans with (round_mag a); assumption. }
      congruence.
    + change (Qred (round_mag a) <= Qred (round_mag b)).
      rewrite !Qred_correct. exact Hm.
Qed.

Lemma round_pos_nonneg a : 0 < a -> le (Fin 0) (round_pos a).
Proof.
  intros Ha. unfold round_pos.
  destruct (Qle_bool _ _); [exact I|].
  change (0 <= Qred (round_mag a)).
  rewrite Qred_correct. apply round_mag_nonneg, Ha.
Qed.

Lemma round64_pos a : 0 < a -> round64 a = round_pos a.
Proof.
  intros Ha. unfold round64.
  assert (H : Qcompare a 0 = Gt) by (apply Qgt_alt; exact Ha).
  rewrite H. reflexivity.
Qed.

Lemma round64_zero a : a == 0 -> round64 a = Fin 0.
Proof.
  intros Ha. unfold round64.
  assert (H : Qcompare a 0 = Eq) by (apply Qeq_alt; exact Ha).
  rewrite H. reflexivity.
Qed.

Lemma round64_mono a b : 0 <= a -> a <= b -> le (round64 a) (round64 b).
Proof.
  intros Ha Hab.
  destruct (Qlt_le_dec 0 a) as [Hpos | Hz].
  - assert (Hb : 0 < b) by (apply Qlt_le_trans with a; assumption).
    rewrite !round64_pos by assumption. apply round_pos_mono; assumption.
  - assert (Ha0 : a == 0) by (apply Qle_antisym; assumption).
    rewrite (round64_zero Ha0).
    destruct (Qlt_le_dec 0 b) as [Hb | Hb].
    + rewrite round64_pos by exact Hb. apply round_pos_nonneg, Hb.
    + assert (Hb0 : b == 0).
      { apply Qle_antisym; [exact Hb|]. rewrite <- Ha0. exact Hab. }
      rewrite (round64_zero Hb0). apply Qle_refl.
Qed.

(** A rational m * 2^s with 0 < m < 2^53, s >= -1074, below 2^1024, is a
    binary64 value: rounding leaves it as it is. *)
Lemma round64_exact m s :
  (0 < m < 2 ^ 53)%Z -> (-1074 <= s)%Z ->
  inject_Z m * pow2 s < pow2 emax ->
  round64 (inject_Z m * pow2 s) = Fin (Qred (inject_Z m * pow2 s)).
Proof.
  intros Hm Hs Hmax.
  set (a := inject_Z m * pow2 s).
  assert (Ha : 0 < a).
  { unfold a. apply Qmult_lt_0_compat; [|apply pow2_pos].
    replace 0 with (inject_Z 0) by reflexivity. rewrite <- Zlt_Qlt. lia. }
  rewrite round64_pos by exact Ha.
  assert (Hmag : round_mag a == a).
  { unfold round_mag, ulp, prec, emin.
    replace (53 - 1)%Z with 52%Z by reflexivity.
    set (e := Z.max (ilog2 a) (-1022)).
    assert (He : (e - 52 <= s)%Z).
    { destruct (Z.max_spec (ilog2 a) (-1022)) as [[_ E] | [_ E]];
        unfold e; rewrite E; [lia|].
      destruct (ilog2_spec Ha) as [H1 _].
      assert (H : pow2 (ilog2 a) < pow2 (53 + s)).
      { apply Qle_lt_trans with a; [exact H1|].
        unfold a. rewrite pow2_add.
        apply Qmult_lt_compat_r; [apply pow2_pos|].
        rewrite pow2_Z by lia. rewrite <- Zlt_Qlt. lia. }
      apply pow2_lt_inv in H. lia. }
    assert (Hq : a / pow2 (e - 52) == inject_Z (m * 2 ^ (s - (e - 52)))).
    { rewrite inject_Z_mult. rewrite <- pow2_Z by lia.
      unfold a. rewrite (pow2_split s (e - 52)).
      field. apply Qnot_eq_sym, Qlt_not_eq, pow2_pos. }
    rewrite (rne_comp Hq), rne_Z.
    rewrite inject_Z_mult. rewrite <- pow2_Z by lia.
    unfold a. rewrite (pow2_split s (e - 52)). ring. }
  unfold round_pos.
  assert (Hov : Qle_bool (pow2 emax) (round_mag a) = false).
  { destruct (Qle_bool (pow2 emax) (round_mag a)) eqn:E; [|reflexivity].
    apply Qle_bool_iff in E. rewrite Hmag in E.
    exfalso. apply (Qlt_irrefl a).
    apply Qlt_le_trans with (pow2 emax); assumption. }
  rewrite Hov. f_equal. apply Qred_complete. exact Hmag.
Qed.


(** Rounding depends on the value only, not on how the rational is written. *)
Lemma ilog2_unique a e :
  0 < a -> pow2 e <= a -> a < pow2 (e + 1) -> ilog2 a = e.
Proof.
  intros Ha H1 H2. destruct (ilog2_spec Ha) as [L1 L2].
  assert (A : pow2 e < pow2 (ilog2 a + 1))
    by (apply Qle_lt_trans with a; assumption).
  assert (B : pow2 (ilog2 a) < pow2 (e + 1))
    by (apply Qle_lt_trans with a; assumption).
  apply pow2_lt_inv in A. apply pow2_lt_inv in B. lia.
Qed.

Lemma ilog2_comp a b : 0 < a -> a == b -> ilog2 b = ilog2 a.
Proof.
  intros Ha E. destruct (ilog2_spec Ha) as [L1 L2].
  apply ilog2_unique; rewrite <- E; assumption.
Qed.

Lemma round_mag_comp a b : 0 < a -> a == b -> round_mag b == round_mag a.
Proof.
  intros Ha E. unfold round_mag, ulp. rewrite (ilog2_comp Ha E).
  assert (H : b / pow2 (Z.max (ilog2 a) emin - (prec - 1))
              == a / pow2 (Z.max (ilog2 a) emin - (prec - 1)))
    by (rewrite <- E; reflexivity).
  rewrite (rne_comp H). reflexivity.
Qed.

Lemma round_pos_comp a b : 0 < a -> a == b -> round_pos b = round_pos a.
Proof.
  intros Ha E. unfold round_pos.
  pose proof (round_mag_comp Ha E) as Hm.
  rewrite (Qleb_comp (pow2 emax) (pow2 emax) (Qeq_refl _) _ _ Hm).
  rewrite (Qred_complete _ _ Hm). reflexivity.
Qed.

Lemma round64_comp a b : a == b -> round64 a = round64 b.
Proof.
  intros E. unfold round64.
  rewrite <- (Qcompare_comp a b E 0 0 (Qeq_refl 0)).
  destruct (Qcompare_spec a 0) as [H | H | H].
  - reflexivity.
  - f_equal. symmetry. apply round_pos_comp; [|rewrite E; reflexivity].
    apply (Qopp_lt_compat a 0) in H. exact H.
  - symmetry. apply round_pos_comp; assumption.
Qed.

Lemma round64_one : round64 1 = Fin 1.
Proof. vm_compute. reflexivity. Qed.

(** Non-negative multiples of one half below 2^52 are binary64 values. *)
Lemma round64_half q k :
  (0 <= k < 2 ^ 53)%Z -> q == k # 2 -> round64 q = Fin (Qred (k # 2)).
Proof.
  intros Hk E. rewrite (round64_comp E).
  destruct (Z.eq_dec k 0) as [-> | NZ]; [reflexivity|].
  assert (E2 : k # 2 == inject_Z k * pow2 (-1)).
  { rewrite (Qmake_Qdiv k 2). reflexivity. }
  rewrite (round64_comp E2), (Qred_complete _ _ E2).
  apply round64_exact; [lia | lia |].
  apply Qle_lt_trans with (inject_Z k * 1).
  - apply Qmult_le_l.
    + replace 0 with (inject_Z 0) by reflexivity. rewrite <- Zlt_Qlt. lia.
    + discriminate.
  - rewrite Qmult_1_r. apply Qlt_le_trans with (inject_Z (2 ^ 53)).
    + rewrite <- Zlt_Qlt. lia.
    + rewrite <- pow2_Z by lia. apply pow2_le. unfold emax. lia.
Qed.

Lemma le_Fin_between x :
  le (Fin 0) x -> le x (Fin 1) -> exists r, x = Fin r /\ 0 <= r <= 1.
Proof.
  destruct x as [ | | | r]; simpl; intros H0 H1; try contradiction.
  exists r. auto.
Qed.

End NumberFacts.

(* ================================================================== *)
(** * The time-saved estimate on integer counts *)
(* ================================================================== *)

Module TimeSavedFacts.
Import JsNumber NumberFacts Spec.
Local Open Scope Q_scope.

(** Comparisons of explicit fractions, as integer arithmetic. *)
Ltac qeq_lia :=
  unfold Qeq, Qle, Qlt, Qmult, Qplus, inject_Z; cbn [Qnum Qden]; lia.

Lemma half_pos k : (0 <= k)%Z -> 0 <= k # 2.
Proof. intros H. qeq_lia. Qed.

(** On integer counts [S] is computed exactly. *)
Lemma S_exact p c :
  (0 <= p)%Z -> (0 <= c)%Z -> (4 * p + 3 * c < 2 ^ 53)%Z ->
  DocumentUpload.S (of_Z p) (of_Z c) = Fin (Qred ((4 * p + 3 * c) # 2)).
Proof.
  intros Hp Hc Hb.
  cbv beta iota delta [DocumentUpload.S mul add of_Z].
  assert (E1 : inject_Z p * inject_Z 2 == (4 * p) # 2).
  { qeq_lia. }
  assert (E2 : inject_Z c * 1.5 == (3 * c) # 2).
  { qeq_lia. }
  rewrite (round64_half (k := 4 * p) ltac:(lia) E1).
  rewrite (round64_half (k := 3 * c) ltac:(lia) E2).
  cbv beta iota.
  apply round64_half; [lia|].
  rewrite !Qred_correct. qeq_lia.
Qed.

Lemma ratio_range k : (0 <= k)%Z -> 0 <= ratio k <= 1.
Proof.
  intros Hk. unfold ratio.
  assert (Hd : 0 < inject_Z (k + 100)).
  { replace 0 with (inject_Z 0) by reflexivity. rewrite <- Zlt_Qlt. lia. }
  split.
  - apply Qle_shift_div_l; [exact Hd|]. rewrite Qmult_0_l.
    replace 0 with (inject_Z 0) by reflexivity. rewrite <- Zle_Qle. lia.
  - apply Qle_shift_div_r; [exact Hd|]. rewrite Qmult_1_l.
    rewrite <- Zle_Qle. lia.
Qed.

Lemma ratio_mono k1 k2 : (0 <= k1 <= k2)%Z -> ratio k1 <= ratio k2.
Proof.
  intros Hk. unfold ratio.
  assert (Hd1 : 0 < inject_Z (k1 + 100)).
  { replace 0 with (inject_Z 0) by reflexivity. rewrite <- Zlt_Qlt. lia. }
  assert (Hd2 : 0 < inject_Z (k2 + 100)).
  { replace 0 with (inject_Z 0) by reflexivity. rewrite <- Zlt_Qlt. lia. }
  apply Qle_shift_div_r; [exact Hd1|].
  setoid_replace (inject_Z k2 / inject_Z (k2 + 100) * inject_Z (k1 + 100))
    with (inject_Z k2 * inject_Z (k1 + 100) / inject_Z (k2 + 100))
    by (field; apply Qnot_eq_sym, Qlt_not_eq; exact Hd2).
  apply Qle_shift_div_l; [exact Hd2|].
  rewrite <- !inject_Z_mult. rewrite <- Zle_Qle. nia.
Qed.

(** [timeSavedHours] at a non-negative multiple of one half up to
    2^52 - 50: the sum [S + 50] is exact, the quotient is rounded once and
    so is the final sum. *)
Lemma timeSavedHours_half s k :
  (0 <= k <= 2 ^ 53 - 101)%Z -> s == k # 2 ->
  exists r, 0 <= r <= 1 /\ round64 (ratio k) = Fin r /\
            DocumentUpload.timeSavedHours (Fin s) = round64 (1 + r).
Proof.
  intros Hk E.
  assert (Hr : 0 <= ratio k <= 1) by (apply ratio_range; lia).
  destruct (@le_Fin_between (round64 (ratio k))) as (r & Er & Hr').
  { rewrite <- (round64_zero (Qeq_refl 0)).
    apply round64_mono; [apply Qle_refl | apply Hr]. }
  { rewrite <- round64_one. apply round64_mono; apply Hr. }
  exists r. split; [exact Hr'|]. split; [exact Er|].
  cbv beta iota delta [DocumentUpload.timeSavedHours add of_Z].
  assert (E50 : s + inject_Z 50 == (k + 100) # 2).
  { rewrite E. qeq_lia. }
  rewrite (round64_half (k := k + 100) ltac:(lia) E50).
  cbv beta iota delta [div].
  assert (Hd : 0 < Qred ((k + 100) # 2)).
  { rewrite Qred_correct. qeq_lia. }
  assert (Hs : sgn (Qred ((k + 100) # 2)) = Gt) by (apply Qgt_alt; exact Hd).
  rewrite Hs.
  assert (Eq : s / Qred ((k + 100) # 2) == ratio k).
  { rewrite Qred_correct, E. unfold ratio.
    rewrite (Qmake_Qdiv k 2), (Qmake_Qdiv (k + 100) 2).
    field.
    apply Qnot_eq_sym, Qlt_not_eq.
    replace 0 with (inject_Z 0) by reflexivity. rewrite <- Zlt_Qlt. lia. }
  rewrite (round64_comp Eq), Er. reflexivity.
Qed.

Lemma timeSavedHours_half_mono s1 k1 s2 k2 :
  (0 <= k1 <= k2)%Z -> (k2 <= 2 ^ 53 - 101)%Z ->
  s1 == k1 # 2 -> s2 == k2 # 2 ->
  le (of_Z 1) (DocumentUpload.timeSavedHours (Fin s1)) /\
  le (DocumentUpload.timeSavedHours (Fin s1))
     (DocumentUpload.timeSavedHours (Fin s2)).
Proof.
  intros Hk Hb E1 E2.
  destruct (@timeSavedHours_half s1 k1 ltac:(lia) E1) as (r1 & Hr1 & Q1 & T1).
  destruct (@timeSavedHours_half s2 k2 ltac:(lia) E2) as (r2 & Hr2 & Q2 & T2).
  rewrite T1, T2. split.
  - change (of_Z 1) with (Fin 1). rewrite <- round64_one.
    apply round64_mono; [discriminate|].
    rewrite <- (Qplus_0_r 1) at 1. apply Qplus_le_r. apply Hr1.
  - apply round64_mono.
    + apply Qle_trans with 1; [discriminate|].
      rewrite <- (Qplus_0_r 1) at 1. apply Qplus_le_r. apply Hr1.
    + apply Qplus_le_r.
      assert (H : le (round64 (ratio k1)) (round64 (ratio k2))).
      { apply round64_mono; [apply ratio_range; lia | apply ratio_mono; lia]. }
      rewrite Q1, Q2 in H. exact H.
Qed.

(** The largest value of the range. *)
Lemma timeSavedHours_top :
  lt (DocumentUpload.timeSavedHours (Spec.halves (2 ^ 53 - 101))) (of_Z 2).
Proof. vm_compute. reflexivity. Qed.

Lemma le_lt_trans x y z : le x y -> lt y z -> lt x z.
Proof.
  destruct x, y, z; simpl; try tauto. apply Qle_lt_trans.
Qed.

End TimeSavedFacts.

(* ================================================================== *)
(** * Facts about the normaliser *)
(* ================================================================== *)

Module NormaliserFacts.
Import JsNumber NumberFacts Spec.
Local Open Scope string_scope.

(** Non-negative integers below 2^53 are binary64 values, so counts in
    that range are added exactly. *)
Lemma round64_int q z :
  (0 <= z < 2 ^ 53)%Z -> (q == inject_Z z)%Q -> round64 q = of_Z z.
Proof.
  intros Hz E. rewrite (round64_comp E).
  destruct (Z.eq_dec z 0) as [-> | NZ]; [reflexivity|].
  assert (E1 : (inject_Z z == inject_Z z * pow2 0)%Q).
  { unfold pow2. simpl. rewrite Qmult_1_r. reflexivity. }
  rewrite (round64_comp E1). rewrite round64_exact.
  - unfold of_Z. f_equal. rewrite <- (Qred_complete _ _ E1).
    apply Qcanon.Qred_identity. simpl. apply Z.gcd_1_r.
  - lia.
  - lia.
  - rewrite <- E1. apply Qlt_le_trans with (inject_Z (2 ^ 53)).
    + rewrite <- Zlt_Qlt. lia.
    + rewrite <- pow2_Z by lia. apply pow2_le. unfold emax. lia.
Qed.

Lemma add_counts h m :
  (0 <= h)%Z -> (0 <= m)%Z -> (h + m < 2 ^ 53)%Z ->
  (of_Z h + of_Z m)%js = of_Z (h + m).
Proof.
  intros Hh Hm Hb. unfold of_Z at 1 2. cbn [add].
  apply round64_int; [lia|]. rewrite inject_Z_plus. reflexivity.
Qed.

Lemma num_or_count z :
  num_or (Some (of_Z z)) (of_Z 0) = of_Z z.
Proof. destruct z; reflexivity. Qed.

(** The buckets the code builds are those of the specification's
    aggregator, for the levels with a positive reported count. *)
Lemma risk_data_shape resp fileName now :
  risk_data (processResponseData resp fileName now)
  = map (fun r => bucket_of r (clauses_of resp)) (reported_levels resp).
Proof.
  unfold processResponseData, reported_levels, reported, clauses_of,
    summary_of.
  cbn [risk_data filter map].
  destruct (Payload.risk_assessment resp) as [a|];
    destruct (Payload.risk_summary resp) as [sm|];
    repeat match goal with
           | |- context [if gtb ?x ?y then _ else _] =>
               destruct (gtb x y)
           end; reflexivity.
Qed.

Lemma bucket_of_name r cs : RiskData.name (bucket_of r cs) = level_name r.
Proof. reflexivity. Qed.

Lemma mapi_from_length {A B : Type} (f : A -> nat -> B) l i :
  List.length (mapi_from i f l) = List.length l.
Proof.
  revert i. induction l as [|x l IH]; intros i; simpl; [reflexivity|].
  rewrite IH. reflexivity.
Qed.

Lemma bucket_of_value r cs :
  RiskData.value (bucket_of r cs) = count_level (level_key r) cs /\
  List.length (RiskData.impacts (bucket_of r cs))
  = count_level (level_key r) cs.
Proof.
  split; [reflexivity|]. unfold bucket_of, mapi. cbn [RiskData.impacts].
  apply mapi_from_length.
Qed.

(** Looking a level's bucket up among the buckets of a duplicate-free
    sublist of [high; medium; low]. *)
Lemma bucket_lookup r cs (levels : list Risk) :
  bucket (level_name r) (map (fun r' => bucket_of r' cs) levels)
  = if existsb (fun r' => match r, r' with
                          | high, high | medium, medium | low, low => true
                          | _, _ => false end) levels
    then Some (bucket_of r cs) else None.
Proof.
  unfold bucket. induction levels as [|r' levels IH]; [reflexivity|].
  cbn [map find existsb]. rewrite bucket_of_name.
  destruct r, r'; cbn [level_name String.eqb Ascii.eqb Bool.eqb orb andb];
    try reflexivity; exact IH.
Qed.

Lemma count_levels_total cs :
  Forall recognised cs ->
  (count_level "high" cs + count_level "medium" cs + count_level "low" cs
   = List.length cs)%nat.
Proof.
  unfold count_level. induction 1 as [|c cs Hc _ IH]; [reflexivity|].
  cbn [filter List.length].
  destruct Hc as [E | [E | E]]; rewrite E;
    cbn [String.eqb Ascii.eqb Bool.eqb andb List.length]; lia.
Qed.

End NormaliserFacts.

(* ================================================================== *)
(** * Facts about strings, the search and the sort *)
(* ================================================================== *)

Module SearchFacts.
Import JsString DetailedDocumentAnalysis Spec.
Local Open Scope string_scope.




(** Case folding maps no character to or from white space. *)
Lemma lower_char_space c :
  is_space (lower_char c) = is_space c /\
  Ascii.eqb (lower_char c) " " = Ascii.eqb c " ".
Proof.
  destruct c as [[] [] [] [] [] [] [] []]; vm_compute; split; reflexivity.
Qed.

Lemma toLowerCase_split s :
  split " " (toLowerCase s) = map toLowerCase (split " " s).
Proof.
  induction s as [|c s IH]; [reflexivity|].
  cbn [toLowerCase split]. rewrite (proj2 (lower_char_space c)).
  destruct (Ascii.eqb c " ").
  - rewrite IH. reflexivity.
  - rewrite IH. destruct (split " " s); reflexivity.
Qed.







(** [Array.prototype.sort] with the risk comparator. *)
Section InsertionSort.
Context {A : Type} (compare : A -> A -> Z).

Lemma insert_perm x l : Permutation (insert compare x l) (x :: l).
Proof.
  induction l as [|y l IH]; [reflexivity|].
  cbn [insert]. destruct (compare x y <=? 0)%Z; [reflexivity|].
  rewrite IH. apply perm_swap.
Qed.

Lemma sort_perm l : Permutation (sort compare l) l.
Proof.
  induction l as [|x l IH]; [reflexivity|].
  cbn [sort]. rewrite insert_perm, IH. reflexivity.
Qed.

Lemma insert_front x l :
  Forall (fun y => (compare x y <= 0)%Z) l -> insert compare x l = x :: l.
Proof.
  intros H. destruct H as [|y l Hy _]; [reflexivity|].
  cbn [insert]. destruct (Z.leb_spec (compare x y) 0); [reflexivity | lia].
Qed.

Lemma insert_skip x l1 l2 :
  Forall (fun y => (0 < compare x y)%Z) l1 ->
  insert compare x (l1 ++ l2)%list = (l1 ++ insert compare x l2)%list.
Proof.
  induction 1 as [|y l1 Hy _ IH]; [reflexivity|].
  cbn [app insert]. destruct (Z.leb_spec (compare x y) 0); [lia|].
  rewrite IH. reflexivity.
Qed.

End InsertionSort.

Lemma with_risk_all r l : Forall (fun c => risk c = r) (with_risk r l).
Proof.
  unfold with_risk. apply Forall_forall. intros c Hc.
  apply filter_In in Hc. destruct Hc as [_ Hc].
  destruct (risk c), r; (reflexivity || discriminate).
Qed.

(** Sorting by risk is the stable arrangement high, medium, low. *)
Lemma sortClausesByRisk_by_risk l : sortClausesByRisk l = by_risk l.
Proof.
  unfold sortClausesByRisk, by_risk.
  induction l as [|x l IH]; [reflexivity|].
  cbn [sort]. rewrite IH. unfold with_risk at 4 5 6. cbn [filter].
  fold (with_risk high l). fold (with_risk medium l). fold (with_risk low l).
  pose proof (with_risk_all high l) as Hh.
  pose proof (with_risk_all medium l) as Hm.
  pose proof (with_risk_all low l) as Hl.
  destruct (risk x) eqn:Ex; cbn [risk_eqb].
  - apply insert_front. rewrite !Forall_app. repeat split;
      (eapply Forall_impl; [|eassumption]); intros c Hc; cbv beta;
      rewrite Ex, Hc; cbn [riskOrder]; lia.
  - rewrite insert_skip.
    + f_equal. cbn [app]. apply insert_front. rewrite !Forall_app. split;
        (eapply Forall_impl; [|eassumption]); intros c Hc; cbv beta;
        rewrite Ex, Hc; cbn [riskOrder]; lia.
    + eapply Forall_impl; [|exact Hh]. intros c Hc. cbv beta.
      rewrite Ex, Hc. cbn [riskOrder]. lia.
  - rewrite insert_skip.
    + f_equal. rewrite insert_skip.
      * f_equal. cbn [app]. apply insert_front.
        eapply Forall_impl; [|exact Hl]. intros c Hc. cbv beta.
        rewrite Ex, Hc. cbn [riskOrder]. lia.
      * eapply Forall_impl; [|exact Hm]. intros c Hc. cbv beta.
        rewrite Ex, Hc. cbn [riskOrder]. lia.
    + eapply Forall_impl; [|exact Hh]. intros c Hc. cbv beta.
      rewrite Ex, Hc. cbn [riskOrder]. lia.
Qed.

End SearchFacts.

(* ================================================================== *)
(** * Properties of the time-saved estimate *)
(* ================================================================== *)

Module TimeSavedProperties.
Import JsNumber NumberFacts TimeSavedFacts Spec.
Local Open Scope string_scope.

(** C4.  The estimator returns "1 hr 33 min" for 24 pages and 10 clauses,
    and "1 hr 0 min" for 0 pages and 0 clauses; on every input it is the
    formula of the specification: S = pageCount*2 + totalClauses*1.5,
    timeSavedHours = 1 + S/(S+50), hours = floor(timeSavedHours),
    minutes = round((timeSavedHours - hours)*60). *)
Theorem calculateTimeSaved_worked_examples :
  DocumentUpload.calculateTimeSaved (of_Z 24) (of_Z 10)
    = Some "1 hr 33 min" /\
  DocumentUpload.calculateTimeSaved (of_Z 0) (of_Z 0)
    = Some "1 hr 0 min" /\
  DocumentUpload.S (of_Z 24) (of_Z 10) = of_Z 63 /\
  DocumentUpload.timeSavedHours (of_Z 0) = of_Z 1 /\
  forall pageCount totalClauses,
    DocumentUpload.calculateTimeSaved pageCount totalClauses
    = TimeSavedEstimator.estimate pageCount totalClauses.
Proof.
  split; [vm_compute; reflexivity|].
  split; [vm_compute; reflexivity|].
  split; [vm_compute; reflexivity|].
  split; [vm_compute; reflexivity|].
  intros pageCount totalClauses. reflexivity.
Qed.

(** C9.  The Dashboard view's [calculateTimeSaved] and the upload
    component's return the same string on every pair (pages, clauses),
    and both are the specified formula. *)
Theorem calculateTimeSaved_dashboard_upload_equal :
  forall pages clauses,
    Dashboard.calculateTimeSaved pages clauses
    = DocumentUpload.calculateTimeSaved pages clauses /\
    DocumentUpload.calculateTimeSaved pages clauses
    = TimeSavedEstimator.estimate pages clauses /\
    Dashboard.calculateTimeSaved pages clauses
    = TimeSavedEstimator.estimate pages clauses.
Proof.
  intros pages clauses.
  unfold Dashboard.calculateTimeSaved, DocumentUpload.calculateTimeSaved,
    TimeSavedEstimator.estimate, DocumentUpload.S,
    DocumentUpload.timeSavedHours.
  repeat split.
Qed.

(** C10.  At pageCount = 25000 and totalClauses = 0, an in-contract
    input, S = 50000, hours = floor(timeSavedHours) = 1 and
    minutes = round((timeSavedHours - 1) * 60) = 60, so the estimator
    returns "1 hr 60 min" and not "2 hr 0 min". *)
Theorem calculateTimeSaved_sixty_minutes :
  DocumentUpload.S (of_Z 25000) (of_Z 0) = of_Z 50000 /\
  DocumentUpload.timeSavedHours (of_Z 50000)
    = (of_Z 1 + of_Z 50000 / of_Z 50050)%js /\
  floor (DocumentUpload.timeSavedHours (of_Z 50000)) = of_Z 1 /\
  round ((DocumentUpload.timeSavedHours (of_Z 50000) - of_Z 1) * of_Z 60)%js
    = of_Z 60 /\
  DocumentUpload.calculateTimeSaved (of_Z 25000) (of_Z 0)
    = Some "1 hr 60 min" /\
  DocumentUpload.calculateTimeSaved (of_Z 25000) (of_Z 0)
    <> Some "2 hr 0 min".
Proof.
  split; [vm_compute; reflexivity|].
  split; [vm_compute; reflexivity|].
  split; [vm_compute; reflexivity|].
  split; [vm_compute; reflexivity|].
  split; [vm_compute; reflexivity|].
  vm_compute. discriminate.
Qed.

(** C5, as the code has it.  On integer page and clause counts for which
    S = pageCount*2 + totalClauses*1.5 stays at or below 2^52 - 50.5 (so
    that S and S + 50 are computed exactly), timeSavedHours = 1 + S/(S+50)
    is non-decreasing in S and lies in [1, 2); in particular, for a fixed
    totalClauses >= 0, increasing pageCount never decreases it. *)
Theorem timeSavedHours_monotone_on_counts (k1 k2 pages1 pages2 clauses : Z) :
  (0 <= k1 <= k2)%Z -> (k2 <= 2 ^ 53 - 101)%Z ->
  (0 <= pages1 <= pages2)%Z -> (0 <= clauses)%Z ->
  (4 * pages2 + 3 * clauses <= 2 ^ 53 - 101)%Z ->
  (le (of_Z 1) (DocumentUpload.timeSavedHours (halves k1)) /\
   le (DocumentUpload.timeSavedHours (halves k1))
      (DocumentUpload.timeSavedHours (halves k2)) /\
   lt (DocumentUpload.timeSavedHours (halves k2)) (of_Z 2)) /\
  DocumentUpload.S (of_Z pages1) (of_Z clauses)
    = Fin (Qred ((4 * pages1 + 3 * clauses) # 2)) /\
  le (DocumentUpload.timeSavedHours
        (DocumentUpload.S (of_Z pages1) (of_Z clauses)))
     (DocumentUpload.timeSavedHours
        (DocumentUpload.S (of_Z pages2) (of_Z clauses))).
Proof.
  intros Hk Hk2 Hp Hc Hb.
  split; [|split].
  - destruct (@timeSavedHours_half_mono (k1 # 2) k1 (k2 # 2) k2 Hk Hk2
                (Qeq_refl _) (Qeq_refl _)) as [H1 H2].
    split; [exact H1|]. split; [exact H2|].
    apply le_lt_trans
      with (DocumentUpload.timeSavedHours (halves (2 ^ 53 - 101))).
    + apply (@timeSavedHours_half_mono (k2 # 2) k2
               ((2 ^ 53 - 101) # 2) (2 ^ 53 - 101));
        [lia | lia | reflexivity | reflexivity].
    + exact timeSavedHours_top.
  - apply S_exact; lia.
  - rewrite !S_exact by lia.
    apply (@timeSavedHours_half_mono _ (4 * pages1 + 3 * clauses)
                                     _ (4 * pages2 + 3 * clauses));
      [lia | lia | apply Qred_correct | apply Qred_correct].
Qed.

Lemma timeSavedHours_monotone_on_counts_witness :
  (le (of_Z 1) (DocumentUpload.timeSavedHours (halves 126)) /\
   le (DocumentUpload.timeSavedHours (halves 126))
      (DocumentUpload.timeSavedHours (halves 100000)) /\
   lt (DocumentUpload.timeSavedHours (halves 100000)) (of_Z 2)) /\
  DocumentUpload.S (of_Z 24) (of_Z 10) = Fin (Qred ((4 * 24 + 3 * 10) # 2)) /\
  le (DocumentUpload.timeSavedHours (DocumentUpload.S (of_Z 24) (of_Z 10)))
     (DocumentUpload.timeSavedHours (DocumentUpload.S (of_Z 25000) (of_Z 10))).
Proof.
  apply (@timeSavedHours_monotone_on_counts 126 100000 24 25000 10); lia.
Defined.

(** C5 as stated fails on binary64 numbers.  At S = 2^61 the sum S + 50
    rounds to S, the quotient is 1 and timeSavedHours is 2, outside
    [1, 2).  The page counts 10468632123403112 < 10468632123403114 (with
    no clauses) give a strictly smaller timeSavedHours for the larger
    one.  And already near S = 16, between the two neighbouring binary64
    values 9007199254740987 / 2^49 < 2251799813685247 / 2^47,
    timeSavedHours decreases. *)
Lemma timeSavedHours_not_monotone_bounded :
  ~ time_saved_monotone_bounded /\
  ~ page_count_monotone /\
  (representable (9007199254740987 # 562949953421312) /\
   representable (2251799813685247 # 140737488355328) /\
   (9007199254740987 # 562949953421312
    < 2251799813685247 # 140737488355328)%Q /\
   lt (DocumentUpload.timeSavedHours
         (Fin (2251799813685247 # 140737488355328)))
      (DocumentUpload.timeSavedHours
         (Fin (9007199254740987 # 562949953421312)))).
Proof.
  split; [|split].
  - intros H.
    destruct (H (inject_Z (2 ^ 61)) (inject_Z (2 ^ 61))) as (_ & _ & H2).
    + vm_compute. reflexivity.
    + vm_compute. reflexivity.
    + vm_compute. discriminate.
    + apply Qle_refl.
    + vm_compute in H2. discriminate.
  - intros H.
    specialize (H 10468632123403112%Z 10468632123403114%Z 0%Z).
    assert (C : le (DocumentUpload.timeSavedHours
                      (DocumentUpload.S (of_Z 10468632123403112) (of_Z 0)))
                   (DocumentUpload.timeSavedHours
                      (DocumentUpload.S (of_Z 10468632123403114) (of_Z 0)))).
    { apply H; [lia | lia | | | ]; vm_compute; reflexivity. }
    vm_compute in C. apply C. reflexivity.
  - split; [vm_compute; reflexivity|].
    split; [vm_compute; reflexivity|].
    split; vm_compute; reflexivity.
Qed.

End TimeSavedProperties.

(* ================================================================== *)
(** * Properties of the normaliser and of the risk aggregation *)
(* ================================================================== *)

Module NormaliserProperties.
Import JsNumber NumberFacts Spec NormaliserFacts.
Local Open Scope string_scope.

(** C1, as the code has it.  For each level, the result has a bucket of
    that level exactly when the count the backend reports for the level
    in risk_summary is positive; that bucket's value, and the number of
    its impacts, is the number of input clauses with that risk_level.
    The values of the buckets present therefore add up to the clause
    counts of the levels reported positive; and when every clause has one
    of the three levels, the three clause counts add up to the number of
    clauses. *)
Theorem aggregation_gated_by_reported_counts resp fileName now :
  (forall r,
     match bucket (level_name r)
                  (risk_data (processResponseData resp fileName now)) with
     | Some b =>
         (reported r resp > of_Z 0)%js = true /\
         b = bucket_of r (clauses_of resp) /\
         RiskData.value b = count_level (level_key r) (clauses_of resp) /\
         List.length (RiskData.impacts b)
         = count_level (level_key r) (clauses_of resp)
     | None => (reported r resp > of_Z 0)%js = false
     end) /\
  total_value (risk_data (processResponseData resp fileName now))
  = ((if (reported high resp > of_Z 0)%js
      then count_level "high" (clauses_of resp) else 0)
     + (if (reported medium resp > of_Z 0)%js
        then count_level "medium" (clauses_of resp) else 0)
     + (if (reported low resp > of_Z 0)%js
        then count_level "low" (clauses_of resp) else 0))%nat /\
  (Forall recognised (clauses_of resp) ->
   (count_level "high" (clauses_of resp)
    + count_level "medium" (clauses_of resp)
    + count_level "low" (clauses_of resp)
    = List.length (clauses_of resp))%nat).
Proof.
  rewrite risk_data_shape. unfold reported_levels.
  split; [|split].
  - intros r. rewrite bucket_lookup. cbn [filter].
    destruct (gtb (reported high resp) (of_Z 0)) eqn:Eh;
      destruct (gtb (reported medium resp) (of_Z 0)) eqn:Em;
      destruct (gtb (reported low resp) (of_Z 0)) eqn:El;
      destruct r; cbn [existsb orb];
      try assumption;
      (split; [assumption | split; [reflexivity | apply bucket_of_value]]).
  - cbn [filter].
    destruct (gtb (reported high resp) (of_Z 0));
      destruct (gtb (reported medium resp) (of_Z 0));
      destruct (gtb (reported low resp) (of_Z 0));
      unfold total_value, list_sum;
      cbn [map fold_right bucket_of RiskData.value level_key];
      unfold count_level; lia.
  - apply count_levels_total.
Qed.

Lemma aggregation_gated_by_reported_counts_witness :
  bucket "High" (risk_data (processResponseData Samples.one_high "a.pdf" "now"))
  = Some (bucket_of high [Samples.clause_high]) /\
  bucket "Medium"
         (risk_data (processResponseData Samples.one_high "a.pdf" "now"))
  = None /\
  total_value (risk_data (processResponseData Samples.one_high "a.pdf" "now"))
  = 1%nat /\
  (count_level "high" (clauses_of Samples.full)
   + count_level "medium" (clauses_of Samples.full)
   + count_level "low" (clauses_of Samples.full)
   = List.length (clauses_of Samples.full))%nat.
Proof.
  destruct (aggregation_gated_by_reported_counts
              Samples.one_high "a.pdf" "now") as (Hb & Ht & _).
  destruct (aggregation_gated_by_reported_counts
              Samples.full "a.pdf" "now") as (_ & _ & Hsum).
  split; [|split; [|split]].
  - pose proof (Hb high) as H.
    destruct (bucket (level_name high) _) as [b|] eqn:E.
    + destruct H as (_ & -> & _). reflexivity.
    + vm_compute in H. discriminate.
  - pose proof (Hb medium) as H.
    destruct (bucket (level_name medium) _) as [b|] eqn:E.
    + destruct H as (H & _). vm_compute in H. discriminate.
    + reflexivity.
  - rewrite Ht. reflexivity.
  - apply Hsum. unfold clauses_of, recognised. cbn.
    repeat apply Forall_cons; try apply Forall_nil; cbn; auto.
Defined.

(** C1 as stated fails on a payload of one high-risk clause whose summary
    reports 1 high, 0 medium and 0 low: the result has a High bucket of
    value 1 and no Medium and no Low bucket. *)
Lemma aggregation_totals_fails :
  ~ aggregation_totals
      (clauses_of Samples.one_high)
      (risk_data (processResponseData Samples.one_high "a.pdf" "now")).
Proof.
  intros (_ & (b & Hb & _) & _). vm_compute in Hb. discriminate.
Qed.

(** C2, as the code has it.  The result has at most three buckets: those
    of the levels whose reported count is positive, in the order High,
    Medium, Low.  When the clause list is empty every bucket present has
    value 0 and no impacts, and when no level is reported positive (as
    for an empty payload) there is no bucket at all and the three impact
    lists of risk_assessment are empty. *)
Theorem buckets_follow_reported_counts resp fileName now :
  map RiskData.name (risk_data (processResponseData resp fileName now))
  = map level_name (reported_levels resp) /\
  (List.length (risk_data (processResponseData resp fileName now)) <= 3)%nat /\
  (clauses_of resp = [] ->
   zero_state (risk_data (processResponseData resp fileName now))) /\
  (reported_levels resp = [] ->
   risk_data (processResponseData resp fileName now) = [] /\
   Assessment.high (risk_assessment (processResponseData resp fileName now))
   = [] /\
   Assessment.medium (risk_assessment (processResponseData resp fileName now))
   = [] /\
   Assessment.low (risk_assessment (processResponseData resp fileName now))
   = []).
Proof.
  pose proof (risk_data_shape resp fileName now) as Hs.
  split; [|split; [|split]].
  - rewrite Hs, map_map. reflexivity.
  - rewrite Hs, length_map. unfold reported_levels. cbn [filter].
    repeat match goal with
           | |- context [if ?b then _ else _] => destruct b
           end; cbn [List.length]; lia.
  - intros Hcs. rewrite Hs, Hcs. unfold zero_state.
    apply Forall_map, Forall_forall. intros r _. split; reflexivity.
  - intros Hr.
    assert (Hd : risk_data (processResponseData resp fileName now) = [])
      by (rewrite Hs, Hr; reflexivity).
    split; [exact Hd|].
    change (Assessment.high
              (risk_assessment (processResponseData resp fileName now)))
      with (impacts_of "High"
              (risk_data (processResponseData resp fileName now))).
    change (Assessment.medium
              (risk_assessment (processResponseData resp fileName now)))
      with (impacts_of "Medium"
              (risk_data (processResponseData resp fileName now))).
    change (Assessment.low
              (risk_assessment (processResponseData resp fileName now)))
      with (impacts_of "Low"
              (risk_data (processResponseData resp fileName now))).
    rewrite Hd. repeat split.
Qed.

Lemma buckets_follow_reported_counts_witness :
  risk_data (processResponseData Samples.empty "contract.pdf" "now") = [] /\
  zero_state
    (risk_data (processResponseData Samples.empty "contract.pdf" "now")) /\
  map RiskData.name
      (risk_data (processResponseData Samples.full "contract.pdf" "now"))
  = ["High"; "Medium"; "Low"].
Proof.
  destruct (buckets_follow_reported_counts Samples.empty "contract.pdf" "now")
    as (_ & _ & Hz & He).
  destruct (buckets_follow_reported_counts Samples.full "contract.pdf" "now")
    as (Hn & _).
  split; [apply He; reflexivity|].
  split; [apply Hz; reflexivity|].
  rewrite Hn. reflexivity.
Defined.

(** C2 as stated fails on the empty payload: the result has no bucket,
    not three. *)
Lemma three_buckets_fails :
  ~ (three_buckets
       (risk_data (processResponseData Samples.empty "contract.pdf" "now")) /\
     (clauses_of Samples.empty = [] ->
      zero_state
        (risk_data (processResponseData Samples.empty "contract.pdf" "now")))).
Proof.
  intros (H & _). vm_compute in H. discriminate.
Qed.


(** C3, as the code has it.  flagged_clauses is the sum, in JavaScript
    number arithmetic, of the high and medium counts the backend reports
    in risk_summary (0 for a count it does not report), which for
    non-negative integer counts with a sum below 2^53 is their exact sum;
    total_clauses is the total the backend reports (0 when it reports
    none), whatever the counts are, so flagged_clauses <= total_clauses
    holds exactly when the reported total is at least that sum. *)
Theorem flagged_is_reported_sum resp fileName now :
  flagged_clauses (processResponseData resp fileName now)
  = (reported high resp + reported medium resp)%js /\
  total_clauses (processResponseData resp fileName now)
  = reported_total resp /\
  (le (flagged_clauses (processResponseData resp fileName now))
      (total_clauses (processResponseData resp fileName now)) <->
   le (reported high resp + reported medium resp)%js (reported_total resp)) /\
  forall h m : Z,
    (0 <= h)%Z -> (0 <= m)%Z -> (h + m < 2 ^ 53)%Z ->
    Payload.high_risk_clauses (summary_of resp) = Some (of_Z h) ->
    Payload.medium_risk_clauses (summary_of resp) = Some (of_Z m) ->
    flagged_clauses (processResponseData resp fileName now) = of_Z (h + m).
Proof.
  assert (Hf : flagged_clauses (processResponseData resp fileName now)
               = (reported high resp + reported medium resp)%js) by reflexivity.
  assert (Ht : total_clauses (processResponseData resp fileName now)
               = reported_total resp) by reflexivity.
  split; [exact Hf|]. split; [exact Ht|]. split.
  - rewrite Hf, Ht. tauto.
  - intros h m Hh Hm Hb Eh Em. rewrite Hf. unfold reported.
    rewrite Eh, Em, !num_or_count. apply add_counts; assumption.
Qed.

Lemma flagged_is_reported_sum_witness :
  flagged_clauses (processResponseData Samples.full "contract.pdf" "now")
  = of_Z 2 /\
  total_clauses (processResponseData Samples.full "contract.pdf" "now")
  = of_Z 3.
Proof.
  destruct (flagged_is_reported_sum Samples.full "contract.pdf" "now")
    as (_ & Ht & _ & Hsum).
  split.
  - apply (Hsum 1%Z 1%Z); [lia | lia | lia | reflexivity | reflexivity].
  - rewrite Ht. reflexivity.
Defined.

(** C3 as stated fails on a summary that reports one high-risk clause and
    no total: flagged_clauses is 1 and total_clauses is 0. *)
Lemma flagged_invariant_fails :
  ~ flagged_invariant
      Samples.high_without_total
      (processResponseData Samples.high_without_total "contract.pdf" "now").
Proof.
  intros (_ & H). vm_compute in H. apply H. reflexivity.
Qed.

(** C6, as the code has it.  total_clauses is the total the backend
    reports in risk_summary.total_clauses_assessed, or 0 when that is
    absent, 0 or NaN; the clause assessments play no part in it. *)
Theorem total_clauses_is_reported_total resp fileName now :
  total_clauses (processResponseData resp fileName now)
  = match Payload.total_clauses_assessed (summary_of resp) with
    | Some v => if truthy v then v else of_Z 0
    | None => of_Z 0
    end /\
  forall resp' fileName' now',
    Payload.risk_summary resp' = Payload.risk_summary resp ->
    total_clauses (processResponseData resp' fileName' now')
    = total_clauses (processResponseData resp fileName now).
Proof.
  assert (Ht : forall r f n,
             total_clauses (processResponseData r f n) = reported_total r)
    by reflexivity.
  split.
  - rewrite Ht. reflexivity.
  - intros resp' fileName' now' Hs. rewrite !Ht.
    unfold reported_total, summary_of. rewrite Hs. reflexivity.
Qed.

Lemma total_clauses_is_reported_total_witness :
  total_clauses
    (processResponseData Samples.clauses_without_summary "contract.pdf" "now")
  = total_clauses (processResponseData Samples.empty "contract.pdf" "now") /\
  total_clauses (processResponseData Samples.full "contract.pdf" "now")
  = of_Z 3.
Proof.
  split.
  - apply (proj2 (total_clauses_is_reported_total
                    Samples.empty "contract.pdf" "now")).
    reflexivity.
  - rewrite (proj1 (total_clauses_is_reported_total
                      Samples.full "contract.pdf" "now")).
    reflexivity.
Defined.

(** C6 as stated fails on a payload with two clause assessments and no
    summary: total_clauses is 0, below the number of clauses. *)
Lemma total_covers_clauses_fails :
  ~ total_covers_clauses
      Samples.clauses_without_summary
      (processResponseData Samples.clauses_without_summary
                           "contract.pdf" "now").
Proof.
  intros H. vm_compute in H. apply H. reflexivity.
Qed.

(** C7, as the code has it.  A payload without page_count, or with
    page_count 0, is normalised to page_count 24; a positive page_count
    is kept. *)
Theorem page_count_default resp fileName now :
  (Payload.page_count resp = None ->
   page_count (processResponseData resp fileName now) = of_Z 24) /\
  (forall q, Payload.page_count resp = Some (Fin q) -> (q == 0)%Q ->
   page_count (processResponseData resp fileName now) = of_Z 24) /\
  (forall v, Payload.page_count resp = Some v -> lt (of_Z 0) v ->
   page_count (processResponseData resp fileName now) = v).
Proof.
  change (page_count (processResponseData resp fileName now))
    with (num_or (Payload.page_count resp) (of_Z 24)).
  split; [|split].
  - intros ->. reflexivity.
  - intros q -> Hq. cbn [num_or truthy].
    apply Qeq_bool_iff in Hq. rewrite Hq. reflexivity.
  - intros v -> Hv. cbn [num_or].
    destruct v as [ | | | q]; cbn [lt of_Z] in Hv; try contradiction;
      [reflexivity|].
    cbn [truthy].
    destruct (Qeq_bool q 0) eqn:E; [|reflexivity].
    apply Qeq_bool_iff in E. rewrite E in Hv.
    exfalso. exact (Qlt_irrefl _ Hv).
Qed.

Lemma page_count_default_witness :
  page_count (processResponseData Samples.empty "contract.pdf" "now")
  = of_Z 24 /\
  page_count (processResponseData Samples.zero_pages "contract.pdf" "now")
  = of_Z 24 /\
  page_count (processResponseData Samples.full "contract.pdf" "now")
  = of_Z 12.
Proof.
  split; [|split].
  - apply (proj1 (page_count_default Samples.empty "contract.pdf" "now")).
    reflexivity.
  - apply (proj1 (proj2 (page_count_default Samples.zero_pages
                           "contract.pdf" "now")) 0%Q);
      reflexivity.
  - apply (proj2 (proj2 (page_count_default Samples.full
                           "contract.pdf" "now")) (of_Z 12));
      reflexivity.
Defined.

(** C7 as stated fails on page_count = -5, which is not positive and is
    kept as it is. *)
Lemma page_count_rule_fails :
  ~ page_count_rule
      Samples.negative_pages
      (processResponseData Samples.negative_pages "contract.pdf" "now").
Proof.
  intros (H & _).
  assert (E : page_count (processResponseData Samples.negative_pages
                                               "contract.pdf" "now")
              = of_Z 24).
  { apply H. vm_compute. discriminate. }
  vm_compute in E. discriminate.
Qed.

End NormaliserProperties.

(* ================================================================== *)
(** * Properties of the clause search *)
(* ================================================================== *)

Module SearchProperties.
Import JsString DetailedDocumentAnalysis Spec SearchFacts.
Local Open Scope string_scope.




End SearchProperties.

(* ================================================================== *)
(** * The number model against primitive binary64 arithmetic *)
(* ================================================================== *)

Module Binary64Check.
Import PrimFloat JsNumber Binary64.
Local Open Scope js_scope.

Example timeSavedHours_63 :
  of_float (1 + 63 / (63 + 50))%float
  = DocumentUpload.timeSavedHours (of_Z 63).
Proof. vm_compute. reflexivity. Qed.

Example minutes_63 :
  of_float ((1 + 63 / (63 + 50) - 1) * 60)%float
  = (DocumentUpload.timeSavedHours (of_Z 63) - of_Z 1) * of_Z 60.
Proof. vm_compute. reflexivity. Qed.

Example timeSavedHours_50000 :
  of_float (1 + 50000 / (50000 + 50))%float
  = DocumentUpload.timeSavedHours (of_Z 50000).
Proof. vm_compute. reflexivity. Qed.

Example minutes_50000 :
  of_float ((1 + 50000 / (50000 + 50) - 1) * 60)%float
  = (DocumentUpload.timeSavedHours (of_Z 50000) - of_Z 1) * of_Z 60.
Proof. vm_compute. reflexivity. Qed.

Example timeSavedHours_2_61 :
  of_float (1 + 0x1p+61 / (0x1p+61 + 50))%float
  = DocumentUpload.timeSavedHours (of_Z (2 ^ 61)).
Proof. vm_compute. reflexivity. Qed.

Example timeSavedHours_large_pages :
  of_float (1 + (10468632123403112 * 2 + 0 * 1.5)
                / ((10468632123403112 * 2 + 0 * 1.5) + 50))%float
  = DocumentUpload.timeSavedHours
      (DocumentUpload.S (of_Z 10468632123403112) (of_Z 0)) /\
  of_float (1 + (10468632123403114 * 2 + 0 * 1.5)
                / ((10468632123403114 * 2 + 0 * 1.5) + 50))%float
  = DocumentUpload.timeSavedHours
      (DocumentUpload.S (of_Z 10468632123403114) (of_Z 0)).
Proof. split; vm_compute; reflexivity. Qed.

Example negative_and_special :
  of_float (1 + (-10) / (-10 + 50))%float
  = DocumentUpload.timeSavedHours (of_Z (-10)) /\
  of_float (1 + (-50) / (-50 + 50))%float
  = DocumentUpload.timeSavedHours (of_Z (-50)) /\
  of_float (0x1p+1023 * 2 / (0x1p+1023 * 2 + 50))%float
  = (of_Z (2 ^ 1023) * of_Z 2) / (of_Z (2 ^ 1023) * of_Z 2 + of_Z 50) /\
  of_float (0x1p-1074 / 2)%float = Fin (pow2 (-1074)) / of_Z 2 /\
  of_float (0x1.fffffffffffffp+1023 + 0x1p+970)%float
  = Fin MAX_VALUE + Fin (pow2 970).
Proof. repeat split; vm_compute; reflexivity. Qed.

Example everyday_values :
  of_float (1 / 3)%float = of_Z 1 / of_Z 3 /\
  of_float (1 / 10 + 2 / 10)%float = of_Z 1 / of_Z 10 + of_Z 2 / of_Z 10 /\
  of_float (2 / 3 * 3 - 2)%float = of_Z 2 / of_Z 3 * of_Z 3 - of_Z 2 /\
  of_float (0x1.ffffffffffffbp+3 + 50)%float
  = Fin (9007199254740987 # 562949953421312) + of_Z 50 /\
  of_float (1 + 0x1.ffffffffffffbp+3 / (0x1.ffffffffffffbp+3 + 50))%float
  = DocumentUpload.timeSavedHours
      (Fin (9007199254740987 # 562949953421312)) /\
  of_float (1 + 0x1.ffffffffffffcp+3 / (0x1.ffffffffffffcp+3 + 50))%float
  = DocumentUpload.timeSavedHours
      (Fin (2251799813685247 # 140737488355328)).
Proof. repeat split; vm_compute; reflexivity. Qed.

End Binary64Check.

(* ================================================================== *)
(** * Facts about blank queries, query pieces and the risk order *)
(* ================================================================== *)

Module RankingFacts.
Import JsString DetailedDocumentAnalysis Spec SearchFacts Terms.
Local Open Scope string_scope.


Lemma trimStart_blank s : trimStart s = "" <-> all_space s = true.
Proof.
  induction s as [|c s IH]; [split; reflexivity|].
  cbn [trimStart all_space]. destruct (is_space c); cbn [andb].
  - exact IH.
  - split; discriminate.
Qed.

Lemma trimEnd_blank s : trimEnd s = "" <-> all_space s = true.
Proof.
  induction s as [|c s IH]; [split; reflexivity|].
  cbn [trimEnd all_space]. destruct (trimEnd s) eqn:E.
  - destruct (is_space c); cbn [andb].
    + split; intros _; [apply IH|]; reflexivity.
    + split; discriminate.
  - split; [discriminate|]. intros H. apply andb_true_iff in H.
    destruct H as [_ H]. apply IH in H. discriminate.
Qed.

Lemma all_space_trimStart s : all_space (trimStart s) = all_space s.
Proof.
  induction s as [|c s IH]; [reflexivity|].
  cbn [trimStart all_space]. destruct (is_space c) eqn:E; cbn [andb].
  - exact IH.
  - cbn [all_space]. rewrite E. reflexivity.
Qed.

Lemma trim_blank s : trim s = "" <-> all_space s = true.
Proof.
  unfold trim. rewrite trimEnd_blank, all_space_trimStart. reflexivity.
Qed.

Lemma all_space_app a b : all_space (a ++ b) = all_space a && all_space b.
Proof.
  induction a as [|c a IH]; [reflexivity|].
  cbn [append all_space]. rewrite IH. apply andb_assoc.
Qed.

Lemma all_space_lower s : all_space (toLowerCase s) = all_space s.
Proof.
  induction s as [|c s IH]; [reflexivity|].
  cbn [toLowerCase all_space]. rewrite IH, (proj1 (lower_char_space c)).
  reflexivity.
Qed.

Lemma toLowerCase_app a b :
  toLowerCase (a ++ b) = toLowerCase a ++ toLowerCase b.
Proof.
  induction a as [|c a IH]; [reflexivity|].
  cbn [append toLowerCase]. rewrite IH. reflexivity.
Qed.

Lemma split_nonempty sep s : split sep s <> [].
Proof.
  destruct s as [|c s]; [discriminate|]. cbn [split].
  destruct (Ascii.eqb c sep); [discriminate|].
  destruct (split sep s); discriminate.
Qed.

Lemma split_app a b :
  split " " (a ++ " " ++ b) = (split " " a ++ split " " b)%list.
Proof.
  induction a as [|c a IH]; [reflexivity|].
  cbn [append split].
  change (a ++ String " " b) with (a ++ " " ++ b). rewrite IH.
  destruct (Ascii.eqb c " "); [reflexivity|].
  pose proof (@split_nonempty " "%char a) as Hne.
  destruct (split " " a) as [|p ps]; [contradiction Hne; reflexivity|].
  reflexivity.
Qed.

(** [with_risk] and [by_risk] *)
Lemma with_risk_app r l1 l2 :
  with_risk r (l1 ++ l2)%list = (with_risk r l1 ++ with_risk r l2)%list.
Proof. apply filter_app. Qed.

Lemma with_risk_other r r' l :
  risk_eqb r r' = false -> with_risk r' (with_risk r l) = [].
Proof.
  intros H. unfold with_risk. induction l as [|c l IH]; [reflexivity|].
  cbn [filter]. destruct (risk_eqb (risk c) r) eqn:E; [|exact IH].
  cbn [filter]. destruct (risk_eqb (risk c) r') eqn:E'; [|exact IH].
  destruct (risk c), r, r'; discriminate.
Qed.

Lemma with_risk_same r l : with_risk r (with_risk r l) = with_risk r l.
Proof.
  unfold with_risk. induction l as [|c l IH]; [reflexivity|].
  cbn [filter]. destruct (risk_eqb (risk c) r) eqn:E; [|exact IH].
  cbn [filter]. rewrite E, IH. reflexivity.
Qed.

Lemma with_risk_by_risk r l : with_risk r (by_risk l) = with_risk r l.
Proof.
  unfold by_risk. rewrite !with_risk_app.
  destruct r.
  - rewrite with_risk_same, (@with_risk_other medium high),
      (@with_risk_other low high) by reflexivity.
    apply app_nil_r.
  - rewrite with_risk_same, (@with_risk_other high medium),
      (@with_risk_other low medium) by reflexivity.
    apply app_nil_r.
  - rewrite with_risk_same, (@with_risk_other high low),
      (@with_risk_other medium low) by reflexivity.
    reflexivity.
Qed.

Lemma by_risk_idempotent l : by_risk (by_risk l) = by_risk l.
Proof. unfold by_risk at 1. rewrite !with_risk_by_risk. reflexivity. Qed.

Lemma filter_filter_comm {A} (f g : A -> bool) l :
  filter f (filter g l) = filter g (filter f l).
Proof.
  induction l as [|x l IH]; [reflexivity|]. cbn [filter].
  destruct (f x) eqn:Ef, (g x) eqn:Eg; cbn [filter];
    rewrite ?Ef, ?Eg, IH; reflexivity.
Qed.

Lemma filter_idem {A} (f : A -> bool) l : filter f (filter f l) = filter f l.
Proof.
  induction l as [|x l IH]; [reflexivity|]. cbn [filter].
  destruct (f x) eqn:Ef; cbn [filter]; rewrite ?Ef, IH; reflexivity.
Qed.

Lemma filter_by_risk keep l :
  filter keep (by_risk l) = by_risk (filter keep l).
Proof.
  unfold by_risk, with_risk. rewrite !filter_app.
  rewrite !(filter_filter_comm keep). reflexivity.
Qed.

Lemma by_risk_perm l : Permutation (by_risk l) l.
Proof.
  rewrite <- sortClausesByRisk_by_risk. apply sort_perm.
Qed.

Lemma by_risk_sorted l :
  Sorted (fun a b => (riskOrder (risk a) <= riskOrder (risk b))%Z) (by_risk l).
Proof.
  apply StronglySorted_Sorted. unfold by_risk.
  pose proof (with_risk_all high l) as Hh.
  pose proof (with_risk_all medium l) as Hm.
  pose proof (with_risk_all low l) as Hl.
  revert Hh Hm Hl.
  generalize (with_risk high l) (with_risk medium l) (with_risk low l).
  intros h m lo Hh Hm Hl.
  induction Hh as [|x h Hx Hh IH].
  - cbn [app]. induction Hm as [|y m Hy Hm IHm].
    + cbn [app]. induction Hl as [|z lo Hz Hl IHl]; constructor.
      * exact IHl.
      * eapply Forall_impl; [|exact Hl]. intros c Hc. cbv beta.
        rewrite Hz, Hc. cbn. lia.
    + cbn [app]. constructor; [exact IHm|].
      apply Forall_app. split; (eapply Forall_impl; [|eassumption]);
        intros c Hc; cbv beta; rewrite Hy, Hc; cbn; lia.
  - cbn [app]. constructor; [exact IH|].
    rewrite !Forall_app.
    repeat split; (eapply Forall_impl; [|eassumption]);
      intros c Hc; cbv beta; rewrite Hx, Hc; cbn; lia.
Qed.

(** The search as a filter followed by the risk arrangement. *)
Lemma search_nonblank clauses query :
  trim query <> "" ->
  performSemanticSearch clauses query = by_risk (filter (keeps query) clauses).
Proof.
  intros H. unfold performSemanticSearch.
  destruct (trim query); [contradiction H; reflexivity|].
  apply sortClausesByRisk_by_risk.
Qed.

Lemma search_blank clauses query :
  trim query = "" -> performSemanticSearch clauses query = by_risk clauses.
Proof.
  intros H. unfold performSemanticSearch. rewrite H.
  apply sortClausesByRisk_by_risk.
Qed.

Lemma includes_empty s : includes s "" = true.
Proof. destruct s; reflexivity. Qed.

Lemma filter_all {A} (f : A -> bool) l :
  (forall x, f x = true) -> filter f l = l.
Proof.
  intros H. induction l as [|x l IH]; [reflexivity|].
  cbn [filter]. rewrite H, IH. reflexivity.
Qed.

End RankingFacts.

(* ================================================================== *)
(** * Facts about the format of the estimate *)
(* ================================================================== *)

Module TimeSavedFormatFacts.
Import JsNumber NumberFacts TimeSavedFacts Spec Terms.
Local Open Scope Q_scope.


Lemma round64_between lo hi lo' hi' x :
  0 <= lo -> lo <= x -> x <= hi ->
  round64 lo = Fin lo' -> round64 hi = Fin hi' ->
  exists v, round64 x = Fin v /\ lo' <= v <= hi'.
Proof.
  intros H0 Hlo Hhi Elo Ehi.
  assert (Hx : 0 <= x) by (apply Qle_trans with lo; assumption).
  pose proof (round64_mono H0 Hlo) as L. pose proof (round64_mono Hx Hhi) as U.
  rewrite Elo in L. rewrite Ehi in U.
  destruct (round64 x) as [ | | | v]; cbn [le] in L, U;
    try (exfalso; exact L); try (exfalso; exact U).
  exists v. auto.
Qed.

Lemma Qfloor_between (z : Z) x :
  inject_Z z <= x -> x < inject_Z (z + 1) -> Qfloor x = z.
Proof.
  intros H1 H2.
  pose proof (Qfloor_le x) as F1. pose proof (Qlt_floor x) as F2.
  assert (A : (Qfloor x < z + 1)%Z).
  { rewrite Zlt_Qlt. apply Qle_lt_trans with x; assumption. }
  assert (B : (z < Qfloor x + 1)%Z).
  { rewrite Zlt_Qlt. apply Qle_lt_trans with x; assumption. }
  lia.
Qed.

Lemma Qfloor_range (a b : Z) x :
  inject_Z a <= x -> x <= inject_Z b -> (a <= Qfloor x <= b)%Z.
Proof.
  intros H1 H2. split.
  - rewrite <- (Qfloor_Z a). apply Qfloor_resp_le, H1.
  - rewrite <- (Qfloor_Z b). apply Qfloor_resp_le, H2.
Qed.

Lemma Number_toString_int z :
  (Z.abs z <= 2 ^ 53)%Z ->
  JsString.Number_toString (of_Z z) = Some (JsString.decimal z).
Proof.
  intros H. unfold JsString.Number_toString, of_Z.
  assert (E : Qred (inject_Z z) = inject_Z z).
  { apply Qcanon.Qred_identity. simpl. apply Z.gcd_1_r. }
  rewrite E. cbn [Qnum Qden inject_Z Z.eqb Pos.eqb andb].
  assert (L : (Z.abs z <=? 2 ^ 53)%Z = true) by (apply Z.leb_le; exact H).
  rewrite L. reflexivity.
Qed.

(** The time-saved hours on integer counts, as a rational in [1, 2). *)
Lemma timeSavedHours_counts_range s k :
  (0 <= k <= 2 ^ 53 - 101)%Z -> s == k # 2 ->
  exists t, DocumentUpload.timeSavedHours (Fin s) = Fin t /\ 1 <= t /\ t < 2.
Proof.
  intros Hk E.
  assert (Hk2 : (2 ^ 53 - 101 <= 2 ^ 53 - 101)%Z) by apply Z.le_refl.
  assert (E2 : (2 ^ 53 - 101) # 2 == (2 ^ 53 - 101) # 2) by apply Qeq_refl.
  pose proof (@timeSavedHours_half_mono s k _ _ Hk Hk2 E E2) as [L U].
  pose proof (le_lt_trans _ _ _ U timeSavedHours_top) as T. clear U.
  destruct (DocumentUpload.timeSavedHours (Fin s)) as [ | | | t];
    cbn [le lt of_Z] in L, T; try (exfalso; exact L); try (exfalso; exact T).
  exists t. auto.
Qed.

Lemma calculateTimeSaved_of_hours t :
  1 <= t -> t < 2 ->
  exists m, (0 <= m <= 60)%Z /\
    hr_min (floor (Fin t))
           (round (mul (sub (Fin t) (floor (Fin t))) (of_Z 60)))
    = Some ("1 hr " ++ JsString.decimal m ++ " min")%string.
Proof.
  intros H1 H2.
  assert (Ef : Qfloor t = 1%Z) by (apply Qfloor_between; assumption).
  cbn [floor]. rewrite Ef.
  cbv beta iota delta [sub neg of_Z add].
  assert (Eu' : exists u, round64 (t + - inject_Z 1) = Fin u /\ 0 <= u <= 1).
  { apply (@round64_between 0 1 0 1).
    - apply Qle_refl.
    - change (inject_Z 1) with 1. lra.
    - change (inject_Z 1) with 1. lra.
    - vm_compute; reflexivity.
    - apply round64_one. }
  destruct Eu' as (u & Eu & Hu).
  rewrite Eu. cbv beta iota delta [mul].
  assert (Ew' : exists w, round64 (u * inject_Z 60) = Fin w /\ 0 <= w <= 60).
  { apply (@round64_between 0 60 0 60).
    - apply Qle_refl.
    - change (inject_Z 60) with 60. lra.
    - change (inject_Z 60) with 60. lra.
    - vm_compute; reflexivity.
    - vm_compute; reflexivity. }
  destruct Ew' as (w & Ew & Hw).
  rewrite Ew. cbn [round].
  set (m := Qfloor (w + (1 # 2))).
  assert (Hm : (0 <= m <= 60)%Z).
  { pose proof (Qfloor_le (w + (1 # 2))) as F1.
    pose proof (Qlt_floor (w + (1 # 2))) as F2. fold m in F1, F2.
    assert (A : (m < 61)%Z).
    { rewrite Zlt_Qlt. apply Qle_lt_trans with (w + (1 # 2)); [exact F1|].
      change (inject_Z 61) with 61. lra. }
    assert (B : (0 < m + 1)%Z).
    { rewrite Zlt_Qlt. apply Qle_lt_trans with (w + (1 # 2)); [|exact F2].
      change (inject_Z 0) with 0. lra. }
    lia. }
  exists m. split; [exact Hm|].
  unfold hr_min. rewrite !Number_toString_int by lia. reflexivity.
Qed.


Lemma calculateTimeSaved_counts (pages clauses : Z) :
  (0 <= pages)%Z -> (0 <= clauses)%Z ->
  (4 * pages + 3 * clauses <= 2 ^ 53 - 101)%Z ->
  exists m, (0 <= m <= 60)%Z /\
    DocumentUpload.calculateTimeSaved (of_Z pages) (of_Z clauses)
    = Some ("1 hr " ++ JsString.decimal m ++ " min")%string.
Proof.
  intros Hp Hc Hb. unfold DocumentUpload.calculateTimeSaved.
  rewrite S_exact by lia.
  assert (Hk : (0 <= 4 * pages + 3 * clauses <= 2 ^ 53 - 101)%Z) by lia.
  destruct (@timeSavedHours_counts_range
              (Qred ((4 * pages + 3 * clauses) # 2)) _ Hk (Qred_correct _))
    as (t & Et & H1 & H2).
  cbv zeta. rewrite Et. apply calculateTimeSaved_of_hours; assumption.
Qed.

Lemma num_or_whole v z d :
  whole v z -> num_or v (of_Z d) = of_Z (if (z =? 0)%Z then d else z).
Proof.
  intros [-> | [-> ->]]; [|reflexivity].
  destruct z; reflexivity.
Qed.

End TimeSavedFormatFacts.

(* ================================================================== *)
(** * Facts about the views *)
(* ================================================================== *)

Module ViewFacts.
Import JsNumber JsLib NumberFacts NormaliserFacts Spec Terms
       TimeSavedFormatFacts.
Local Open Scope string_scope.

Lemma sumValues_from (items : list RiskData.t) (a : Z) :
  (0 <= a)%Z -> (a + Z.of_nat (total_value items) < 2 ^ 53)%Z ->
  fold_left (fun sum item => (sum + of_nat (RiskData.value item))%js)
            items (of_Z a)
  = of_Z (a + Z.of_nat (total_value items)).
Proof.
  revert a. induction items as [|x items IH]; intros a Ha Hb.
  - cbn. f_equal. f_equal. unfold total_value. cbn. lia.
  - unfold total_value in *. cbn [map list_sum fold_left] in *.
    change (of_nat (RiskData.value x))
      with (of_Z (Z.of_nat (RiskData.value x))).
    change (list_sum (RiskData.value x :: map RiskData.value items))
      with (RiskData.value x + list_sum (map RiskData.value items))%nat in *.
    rewrite add_counts by lia.
    rewrite IH by lia. f_equal. lia.
Qed.

Lemma sumValues_exact items :
  (Z.of_nat (total_value items) < 2 ^ 53)%Z ->
  DashboardView.sumValues items = of_nat (total_value items).
Proof.
  intros H. unfold DashboardView.sumValues.
  rewrite sumValues_from by lia. reflexivity.
Qed.

Lemma truthy_num_or v d : truthy d = true -> truthy (num_or v d) = true.
Proof.
  intros H. destruct v as [x|]; cbn [num_or]; [|exact H].
  destruct (truthy x) eqn:E; assumption.
Qed.

Lemma num_or_truthy x d : truthy x = true -> num_or (Some x) d = x.
Proof. intros H. cbn [num_or]. rewrite H. reflexivity. Qed.

Lemma page_count_truthy resp fileName now :
  truthy (page_count (processResponseData resp fileName now)) = true.
Proof.
  change (page_count (processResponseData resp fileName now))
    with (num_or (Payload.page_count resp) (of_Z 24)).
  apply truthy_num_or. reflexivity.
Qed.

Lemma pageCount_stored resp fileName now :
  DashboardView.pageCount (Some (processResponseData resp fileName now))
  = page_count (processResponseData resp fileName now).
Proof.
  unfold DashboardView.pageCount. apply num_or_truthy, page_count_truthy.
Qed.

Lemma count_level_le cs :
  (count_level "high" cs + count_level "medium" cs + count_level "low" cs
   <= List.length cs)%nat.
Proof.
  unfold count_level. induction cs as [|c cs IH]; [cbn; lia|].
  cbn [filter List.length].
  destruct (String.eqb_spec (risk_level c) "high") as [E | N1].
  - rewrite E. cbn [String.eqb Ascii.eqb Bool.eqb andb List.length]. lia.
  - destruct (String.eqb_spec (risk_level c) "medium") as [E | N2].
    + rewrite E. cbn [String.eqb Ascii.eqb Bool.eqb andb List.length]. lia.
    + destruct (String.eqb_spec (risk_level c) "low") as [E | N3];
        cbn [List.length]; lia.
Qed.

Lemma total_value_le resp fileName now :
  (total_value (risk_data (processResponseData resp fileName now))
   <= List.length (clauses_of resp))%nat.
Proof.
  rewrite risk_data_shape. unfold reported_levels. cbn [filter].
  pose proof (count_level_le (clauses_of resp)) as H.
  destruct (gtb (reported high resp) (of_Z 0));
    destruct (gtb (reported medium resp) (of_Z 0));
    destruct (gtb (reported low resp) (of_Z 0));
    unfold total_value, list_sum;
    cbn [map fold_right bucket_of RiskData.value level_key];
    unfold count_level in *; lia.
Qed.

Lemma reported_whole r resp z :
  whole (match r with
         | high => Payload.high_risk_clauses (summary_of resp)
         | medium => Payload.medium_risk_clauses (summary_of resp)
         | low => Payload.low_risk_clauses (summary_of resp)
         end) z ->
  reported r resp = of_Z z.
Proof.
  intros W. unfold reported.
  destruct r; rewrite (num_or_whole 0 W); destruct z; reflexivity.
Qed.

Lemma ext_chars_no_dot s :
  DashboardView.ext_chars s = true -> ~ In "."%char (list_ascii_of_string s).
Proof.
  induction s as [|c s IH]; intros H Hin; [exact Hin|].
  cbn [DashboardView.ext_chars] in H. apply andb_true_iff in H.
  destruct H as [Hc Hs]. destruct Hin as [-> | Hin].
  - discriminate Hc.
  - exact (IH Hs Hin).
Qed.

Lemma ext_chars_app a b :
  DashboardView.ext_chars (a ++ b)
  = DashboardView.ext_chars a && DashboardView.ext_chars b.
Proof.
  induction a as [|c a IH]; [reflexivity|].
  cbn [append DashboardView.ext_chars]. rewrite IH. apply andb_assoc.
Qed.

Lemma ext_chars_dot a b : DashboardView.ext_chars (a ++ "." ++ b) = false.
Proof.
  rewrite ext_chars_app. cbn [append DashboardView.ext_chars].
  change (DashboardView.ext_char ".") with false.
  cbn [andb]. apply andb_false_r.
Qed.

Lemma stripped_no_dot s :
  ~ In "."%char (list_ascii_of_string s) -> DashboardView.stripped s = None.
Proof.
  induction s as [|c s IH]; intros H; [reflexivity|].
  cbn [DashboardView.stripped].
  destruct (Ascii.eqb_spec c ".") as [E | N].
  - exfalso. apply H. left. auto.
  - cbn [andb]. rewrite IH; [reflexivity|].
    intros Hin. apply H. right. exact Hin.
Qed.

Lemma stripped_ext base ext :
  ext <> "" -> DashboardView.ext_chars ext = true ->
  DashboardView.stripped (base ++ "." ++ ext) = Some base.
Proof.
  intros Hne Hext. induction base as [|c base IH].
  - cbn [append DashboardView.stripped Ascii.eqb Bool.eqb andb].
    rewrite Hext. destruct ext; [contradiction Hne; reflexivity|reflexivity].
  - cbn [append DashboardView.stripped].
    change (base ++ String "." ext) with (base ++ "." ++ ext).
    rewrite ext_chars_dot, andb_false_r, IH. reflexivity.
Qed.

(** What [stripped] removes is one dot and a non-empty run without
    dot or slash. *)
Lemma stripped_spec s base :
  DashboardView.stripped s = Some base ->
  exists ext, ext <> "" /\ DashboardView.ext_chars ext = true /\
              s = base ++ "." ++ ext.
Proof.
  revert base. induction s as [|c s IH]; intros base H; [discriminate|].
  cbn [DashboardView.stripped] in H.
  destruct (Ascii.eqb_spec c ".") as [E | N].
  - cbn [andb] in H. destruct s as [|d s'].
    + cbn [andb DashboardView.stripped] in H. discriminate.
    + cbn [andb] in H.
      destruct (DashboardView.ext_chars (String d s')) eqn:Ee.
      * injection H as <-. exists (String d s').
        split; [discriminate|]. split; [exact Ee|]. rewrite E. reflexivity.
      * destruct (DashboardView.stripped (String d s')) as [r|] eqn:Er;
          [|discriminate].
        injection H as <-. destruct (IH r eq_refl) as (ext & H1 & H2 & H3).
        exists ext. split; [exact H1|]. split; [exact H2|].
        rewrite H3. reflexivity.
  - cbn [andb] in H.
    destruct (DashboardView.stripped s) as [r|] eqn:Er; [|discriminate].
    injection H as <-. destruct (IH r eq_refl) as (ext & H1 & H2 & H3).
    exists ext. split; [exact H1|]. split; [exact H2|].
    rewrite H3. reflexivity.
Qed.

Lemma take_length n s : (String.length (take n s) <= n)%nat.
Proof.
  revert s. induction n as [|n IH]; intros s; [cbn; lia|].
  destruct s as [|c s]; cbn [take String.length]; [lia|].
  specialize (IH s). lia.
Qed.

Lemma append_length a b :
  String.length (a ++ b) = (String.length a + String.length b)%nat.
Proof.
  induction a as [|c a IH]; [reflexivity|].
  cbn [append String.length]. rewrite IH. reflexivity.
Qed.

Lemma value_le_total (item : RiskData.t) data :
  In item data -> (RiskData.value item <= total_value data)%nat.
Proof.
  unfold total_value. induction data as [|x data IH]; [intros []|].
  cbn [map].
  change (list_sum (RiskData.value x :: map RiskData.value data))
    with (RiskData.value x + list_sum (map RiskData.value data))%nat.
  intros [-> | H]; [lia|]. specialize (IH H). lia.
Qed.

Lemma total_positive data :
  (0 < total_value data)%nat <->
  exists item, In item data /\ (0 < RiskData.value item)%nat.
Proof.
  unfold total_value. induction data as [|x data IH].
  - cbn. split; [lia | intros (i & [] & _)].
  - cbn [map].
    change (list_sum (RiskData.value x :: map RiskData.value data))
      with (RiskData.value x + list_sum (map RiskData.value data))%nat.
    split.
    + intros H. destruct (Nat.eq_dec (RiskData.value x) 0) as [E | NE].
      * destruct (proj1 IH) as (i & Hi & Hv); [lia|].
        exists i. split; [right; exact Hi | exact Hv].
      * exists x. split; [left; reflexivity | lia].
    + intros (i & [-> | Hi] & Hv); [lia|].
      assert (0 < list_sum (map RiskData.value data))%nat
        by (apply IH; exists i; auto).
      lia.
Qed.

Lemma is_zero_of_nat n : is_zero (of_nat n) = (n =? 0)%nat.
Proof. destruct n; reflexivity. Qed.

End ViewFacts.

(* ================================================================== *)
(** * Facts about the clause objects *)
(* ================================================================== *)

Module ClauseObjectFacts.
Import JsLib Spec Terms NormaliserFacts ViewFacts.
Local Open Scope string_scope.

Lemma stored_clauses_processed resp fileName now :
  stored_clauses (processResponseData resp fileName now) = clauses_of resp.
Proof.
  unfold stored_clauses, clauses_of, processResponseData.
  cbn [risk_assessment Assessment.original].
  destruct (Payload.risk_assessment resp); reflexivity.
Qed.

Lemma str_or_nonempty v d : d <> "" -> str_or v d <> "".
Proof.
  intros H. destruct v as [[|c s]|]; cbn [str_or]; [exact H | | exact H].
  discriminate.
Qed.

Lemma str_or_level l lvl :
  lvl <> "" -> lvl <> "medium" ->
  String.eqb (str_or (Some l) "medium") lvl = String.eqb l lvl.
Proof.
  intros H1 H2. destruct l as [|c s]; [|reflexivity]. cbn [str_or].
  destruct (String.eqb_spec "medium" lvl) as [E|_]; [congruence|].
  destruct (String.eqb_spec "" lvl) as [E|_]; [congruence|]. reflexivity.
Qed.

Lemma str_or_medium l :
  String.eqb (str_or (Some l) "medium") "medium"
  = String.eqb l "medium" || String.eqb l "".
Proof.
  destruct l as [|c s]; [reflexivity|]. cbn [str_or].
  destruct (String.eqb (String c s) "medium"); reflexivity.
Qed.

Lemma mapi_from_map {A B C : Type} (g : B -> C) (h : nat -> C)
    (f : A -> nat -> B) l i :
  (forall x j, g (f x j) = h j) ->
  map g (mapi_from i f l) = map h (seq i (List.length l)).
Proof.
  intros H. revert i. induction l as [|x l IH]; intros i; [reflexivity|].
  cbn [mapi_from map List.length seq]. rewrite H, IH. reflexivity.
Qed.

Lemma mapi_from_Forall {A B : Type} (P : B -> Prop) (f : A -> nat -> B) l i :
  (forall x j, P (f x j)) -> Forall P (mapi_from i f l).
Proof.
  intros H. revert i. induction l as [|x l IH]; intros i; constructor.
  - apply H.
  - apply IH.
Qed.

Lemma mapi_from_Forall_iff {A B : Type} (P : B -> Prop) (Q : A -> Prop)
    (f : A -> nat -> B) l i :
  (forall x j, P (f x j) <-> Q x) ->
  (Forall P (mapi_from i f l) <-> Forall Q l).
Proof.
  intros H. revert i. induction l as [|x l IH]; intros i.
  - cbn. split; constructor.
  - cbn [mapi_from]. split; intros HF; inversion HF as [|? ? H1 H2]; subst;
      constructor; try (apply (H x i); assumption);
      try (apply (IH (Datatypes.S i)); assumption).
Qed.


Lemma mapi_from_filter_length {A B : Type} (p : B -> bool) (q : A -> bool)
    (f : A -> nat -> B) l i :
  (forall x j, p (f x j) = q x) ->
  List.length (filter p (mapi_from i f l)) = List.length (filter q l).
Proof.
  intros H. revert i. induction l as [|x l IH]; intros i; [reflexivity|].
  cbn [mapi_from filter]. rewrite H.
  destruct (q x); cbn [List.length]; rewrite IH; reflexivity.
Qed.

Lemma filter_or_length {A : Type} (p q : A -> bool) l :
  (forall x, p x = true -> q x = false) ->
  List.length (filter (fun x => p x || q x) l)
  = (List.length (filter p l) + List.length (filter q l))%nat.
Proof.
  intros H. induction l as [|x l IH]; [reflexivity|]. cbn [filter].
  destruct (p x) eqn:Ep.
  - rewrite (H x Ep). cbn [orb List.length]. rewrite IH. reflexivity.
  - destruct (q x); cbn [orb List.length]; rewrite IH; lia.
Qed.

Lemma level_disjoint (l a b : string) :
  a <> b -> String.eqb l a = true -> String.eqb l b = false.
Proof.
  intros H E. apply String.eqb_eq in E. subst l.
  apply String.eqb_neq, H.
Qed.

Lemma risk_of_some l :
  DetailedView.risk_of l <> None <->
  l = "high" \/ l = "medium" \/ l = "low".
Proof.
  unfold DetailedView.risk_of.
  destruct (String.eqb_spec l "high") as [E1|N1];
    [split; [auto | discriminate]|].
  destruct (String.eqb_spec l "medium") as [E2|N2];
    [split; [auto | discriminate]|].
  destruct (String.eqb_spec l "low") as [E3|N3];
    [split; [auto | discriminate]|].
  split; [congruence | intros [H | [H | H]]; congruence].
Qed.

Lemma typed_risk c :
  DetailedView.typed c <> None <->
  DetailedView.risk_of (ClauseObject.risk c) <> None.
Proof.
  unfold DetailedView.typed.
  destruct (DetailedView.risk_of (ClauseObject.risk c));
    split; intros H; try discriminate; exfalso; apply H; reflexivity.
Qed.

Lemma has_spec s i : CounterProposal.has s i = true <-> In i s.
Proof.
  unfold CounterProposal.has. rewrite existsb_exists. split.
  - intros (j & Hj & E). apply Nat.eqb_eq in E. subst. exact Hj.
  - intros H. exists i. split; [exact H | apply Nat.eqb_refl].
Qed.

Lemma delete_spec s i j :
  In j (CounterProposal.delete s i) <-> In j s /\ j <> i.
Proof.
  unfold CounterProposal.delete. rewrite filter_In, negb_true_iff.
  rewrite Nat.eqb_neq. reflexivity.
Qed.

Lemma delete_length s i :
  NoDup s -> In i s ->
  Datatypes.S (List.length (CounterProposal.delete s i)) = List.length s.
Proof.
  unfold CounterProposal.delete. induction 1 as [|x s Hx Hnd IH].
  - intros [].
  - intros [-> | Hin]; cbn [filter List.length].
    + rewrite Nat.eqb_refl. cbn [negb]. f_equal.
      f_equal. clear IH Hnd. induction s as [|y s IHs]; [reflexivity|].
      cbn [filter].
      destruct (Nat.eqb_spec y i) as [E | N].
      * exfalso. apply Hx. left. exact E.
      * cbn [negb]. f_equal. apply IHs. intros H. apply Hx. right. exact H.
    + destruct (Nat.eqb_spec x i) as [E | N].
      * exfalso. subst. exact (Hx Hin).
      * cbn [negb List.length]. f_equal. apply IH, Hin.
Qed.

End ClauseObjectFacts.

(* ================================================================== *)
(** * Facts about the impacts of a bucket *)
(* ================================================================== *)

Module ImpactFacts.
Import Spec Terms NormaliserFacts ClauseObjectFacts.
Local Open Scope string_scope.

Lemma to_int_parses z :
  NilZero.int_of_string (NilZero.string_of_int (Z.to_int z))
  = Some (Z.to_int z).
Proof.
  apply NilZero.isi; destruct z as [|p|p]; cbn [Z.to_int];
    try discriminate; intros E; injection E as E;
    exact (DecimalPos.Unsigned.to_uint_nonnil _ E).
Qed.

Lemma nat_str_inj n m : nat_str n = nat_str m -> n = m.
Proof.
  unfold nat_str, JsString.decimal. intros H.
  pose proof (to_int_parses (Z.of_nat n)) as Hn.
  pose proof (to_int_parses (Z.of_nat m)) as Hm.
  rewrite H, Hm in Hn. injection Hn as Hn.
  apply DecimalZ.to_int_inj in Hn. lia.
Qed.

Lemma NoDup_map_injective {A B : Type} (f : A -> B) l :
  (forall x y, f x = f y -> x = y) -> NoDup l -> NoDup (map f l).
Proof.
  intros Hf. induction 1 as [|x l Hx Hnd IH]; cbn [map]; constructor.
  - intros Hin. apply in_map_iff in Hin. destruct Hin as (y & E & Hy).
    apply Hf in E. subst y. exact (Hx Hy).
  - exact IH.
Qed.

(** The ids of the impacts of a level's bucket. *)
Lemma bucket_ids r cs :
  map RiskImpact.id (RiskData.impacts (bucket_of r cs))
  = map (fun index => level_key r ++ "-" ++ nat_str index)
        (seq 0 (RiskData.value (bucket_of r cs))).
Proof.
  unfold bucket_of, mapi. cbn [RiskData.impacts RiskData.value].
  apply mapi_from_map. reflexivity.
Qed.

Lemma bucket_ids_NoDup r cs :
  NoDup (map RiskImpact.id (RiskData.impacts (bucket_of r cs))).
Proof.
  rewrite bucket_ids. apply NoDup_map_injective; [|apply seq_NoDup].
  intros x y H. apply nat_str_inj.
  destruct r; cbn [level_key append] in H; congruence.
Qed.

Lemma bucket_ids_level r r' cs cs' id :
  In id (map RiskImpact.id (RiskData.impacts (bucket_of r cs))) ->
  In id (map RiskImpact.id (RiskData.impacts (bucket_of r' cs'))) ->
  r = r'.
Proof.
  rewrite !bucket_ids, !in_map_iff.
  intros (i & <- & _) (j & E & _).
  destruct r, r'; cbn [level_key append] in E;
    (reflexivity || discriminate E).
Qed.

Lemma buckets_ids_NoDup cs levels :
  NoDup levels ->
  NoDup (map RiskImpact.id
           (flat_map RiskData.impacts
                     (map (fun r => bucket_of r cs) levels))).
Proof.
  induction 1 as [|r levels Hr Hnd IH]; [constructor|].
  cbn [map flat_map]. rewrite map_app.
  apply NoDup_app; [apply bucket_ids_NoDup | exact IH |].
  intros id H1 H2. apply in_map_iff in H2.
  destruct H2 as (im & E & Him). apply in_flat_map in Him.
  destruct Him as (b & Hb & Him). apply in_map_iff in Hb.
  destruct Hb as (r' & <- & Hr').
  assert (r = r').
  { apply (@bucket_ids_level r r' cs cs id H1).
    apply in_map_iff. exists im. split; assumption. }
  subst r'. exact (Hr Hr').
Qed.

Lemma reported_levels_NoDup resp : NoDup (reported_levels resp).
Proof.
  unfold reported_levels. apply NoDup_filter.
  repeat constructor; cbn; intuition discriminate.
Qed.

End ImpactFacts.

(* ================================================================== *)
(** * Invariants of the upload handlers *)
(* ================================================================== *)

Module UploadFlowFacts.
Import UploadFlow Terms.
Local Open Scope string_scope.

Lemma uploads_app events events' :
  uploads (events ++ events') = (uploads events ++ uploads events')%list.
Proof. apply flat_map_app. Qed.

(** An upload started comes from an event that offers a PDF file
    first. *)
Lemma uploads_offered events file :
  In file (uploads events) ->
  type file = "application/pdf" /\ offered events file.
Proof.
  unfold uploads. rewrite in_flat_map. intros (e & He & Hf).
  destruct e as [ | | [|f files] | [|f files] | | ]; try destruct Hf;
    destruct (String.eqb_spec (type f) "application/pdf") as [E | N];
    try destruct Hf as [<- | []]; try destruct Hf.
  - split; [exact E|]. exists files. left. exact He.
  - split; [exact E|]. exists files. right. exact He.
Qed.

Lemma nth_error_more {A : Type} (l l' : list A) n x :
  nth_error l n = Some x -> nth_error (l ++ l') n = Some x.
Proof.
  intros H. rewrite nth_error_app1; [exact H|].
  apply nth_error_Some. congruence.
Qed.

Lemma nth_error_last {A : Type} (l : list A) x :
  nth_error (l ++ [x]) (List.length l) = Some x.
Proof.
  rewrite nth_error_app2 by apply Nat.le_refl.
  rewrite Nat.sub_diag. reflexivity.
Qed.

Lemma Inv_initial : upload_invariant [] initial.
Proof.
  split; cbn.
  - reflexivity.
  - intros p [].
  - left. reflexivity.
  - discriminate.
  - discriminate.
Qed.

(** An event that starts no upload keeps the invariant of a state it
    leaves as it is. *)
Lemma Inv_more events e st :
  uploads [e] = [] ->
  upload_invariant events st -> upload_invariant (events ++ [e]) st.
Proof.
  intros He [H0 H1 H2 H3 H4]. split; try assumption.
  - rewrite uploads_app, He, app_nil_r. exact H0.
  - intros p Hp. rewrite uploads_app. apply nth_error_more, H1, Hp.
  - destruct H2 as [H2 | (request & responseData & file & now
                          & Hs & Hn & E)]; [left; exact H2|].
    right. exists request, responseData, file, now.
    split; [apply in_or_app; left; exact Hs|].
    split; [rewrite uploads_app; apply nth_error_more, Hn | exact E].
Qed.

(** An event that starts the upload of [file]. *)
Lemma Inv_handleFileUpload events e file st :
  uploads [e] = [file] ->
  upload_invariant events st ->
  upload_invariant (events ++ [e]) (handleFileUpload file st).
Proof.
  intros He [H0 H1 H2 H3 H4]. split; cbn.
  - rewrite uploads_app, He, length_app, H0. cbn. lia.
  - intros p Hp. rewrite uploads_app, He.
    apply in_app_iff in Hp. destruct Hp as [Hp | [<- | []]].
    + apply nth_error_more, H1, Hp.
    + cbn [fst snd]. rewrite H0. apply nth_error_last.
  - destruct H2 as [H2 | (request & responseData & f & now
                          & Hs & Hn & E)]; [left; exact H2|].
    right. exists request, responseData, f, now.
    split; [apply in_or_app; left; exact Hs|].
    split; [rewrite uploads_app; apply nth_error_more, Hn | exact E].
  - intros _ E. apply app_eq_nil in E. destruct E as [_ E]. discriminate E.
  - intros _. rewrite map_app, in_app_iff. right. left. reflexivity.
Qed.

Lemma Inv_setIsDragOver events v st :
  upload_invariant events st -> upload_invariant events (setIsDragOver v st).
Proof. intros [H0 H1 H2 H3 H4]. split; assumption. Qed.

Lemma Inv_setUploadStatus events v st :
  v <> uploading -> upload_invariant events st ->
  upload_invariant events (setUploadStatus v st).
Proof.
  intros Hv [H0 H1 H2 H3 H4]. split; cbn; try assumption.
  intros E. congruence.
Qed.

Lemma handleFileUpload_setIsDragOver file v st :
  handleFileUpload file (setIsDragOver v st)
  = setIsDragOver v (handleFileUpload file st).
Proof. reflexivity. Qed.

Lemma request_of_pending request st file :
  request_of request st = Some file -> In (request, file) (pending st).
Proof.
  unfold request_of.
  destruct (find (fun p => (fst p =? request)%nat) (pending st))
    as [[r f]|] eqn:E; [|discriminate].
  intros H. injection H as <-. apply find_some in E.
  destruct E as [Hin Hr]. cbn in Hr. apply Nat.eqb_eq in Hr. subst r.
  exact Hin.
Qed.

Lemma Inv_resume events request file outcome now st :
  upload_invariant events st -> request_of request st = Some file ->
  In (settled request outcome now) events ->
  upload_invariant events (resume file outcome now (forget request st)).
Proof.
  intros [H0 H1 H2 H3 H4] Hr He.
  pose proof (H1 _ (request_of_pending _ _ Hr)) as Hn. cbn [fst snd] in Hn.
  assert (Hp : forall p,
             In p (filter (fun p => negb (fst p =? request)%nat)
                          (pending st)) ->
             nth_error (uploads events) (fst p) = Some (snd p)).
  { intros p Hp. apply filter_In in Hp. apply H1, Hp. }
  destruct outcome; split; cbn; try exact H0; try exact Hp;
    try discriminate; try exact H2.
  right. exists request, responseData, file, now.
  split; [exact He|]. split; [exact Hn | reflexivity].
Qed.

Lemma Inv_step events st e :
  upload_invariant events st -> upload_invariant (events ++ [e]) (step st e).
Proof.
  intros H.
  destruct e as [ | | files | files | request outcome now | ];
    cbn [step].
  - apply Inv_setIsDragOver, Inv_more; [reflexivity | exact H].
  - apply Inv_setIsDragOver, Inv_more; [reflexivity | exact H].
  - unfold handleDrop. destruct files as [|file files].
    + apply Inv_setIsDragOver, Inv_more; [reflexivity | exact H].
    + destruct (String.eqb (type file) "application/pdf") eqn:E.
      * rewrite handleFileUpload_setIsDragOver.
        apply Inv_setIsDragOver, Inv_handleFileUpload; [|exact H].
        cbn. rewrite E. reflexivity.
      * apply Inv_setUploadStatus; [discriminate|].
        apply Inv_setIsDragOver, Inv_more; [|exact H].
        cbn. rewrite E. reflexivity.
  - unfold handleFileSelect. destruct files as [|file files].
    + apply Inv_more; [reflexivity | exact H].
    + destruct (String.eqb (type file) "application/pdf") eqn:E.
      * apply Inv_handleFileUpload; [|exact H].
        cbn. rewrite E. reflexivity.
      * apply Inv_setUploadStatus; [discriminate|].
        apply Inv_more; [|exact H]. cbn. rewrite E. reflexivity.
  - pose proof (@Inv_more events (settled request outcome now) st
                  eq_refl H) as H'.
    destruct (request_of request st) as [file|] eqn:E; [|exact H'].
    apply Inv_resume; [exact H' | exact E |].
    apply in_or_app. right. left. reflexivity.
  - apply Inv_setUploadStatus; [discriminate|].
    apply Inv_more; [reflexivity | exact H].
Qed.

Lemma run_snoc events e : run (events ++ [e]) = step (run events) e.
Proof. unfold run. rewrite fold_left_app. reflexivity. Qed.

Lemma Inv_run events : upload_invariant events (run events).
Proof.
  induction events as [|e events IH] using rev_ind.
  - apply Inv_initial.
  - rewrite run_snoc. apply Inv_step, IH.
Qed.

End UploadFlowFacts.

(* ================================================================== *)
(** * Properties of the risk order and of the search *)
(* ================================================================== *)

Module RankingProperties.
Import JsString DetailedDocumentAnalysis Spec SearchFacts Terms RankingFacts.
Local Open Scope string_scope.

(** X1 ([sortClausesByRisk]).  The sort only rearranges: its result is a
    permutation of the clause list, namely the high clauses, then the
    medium ones, then the low ones, each group in the order it had
    (the sort is stable); the result is ordered by [riskOrder], and
    sorting it again changes nothing. *)
Theorem sortClausesByRisk_stable clauseList :
  Permutation (sortClausesByRisk clauseList) clauseList /\
  sortClausesByRisk clauseList = by_risk clauseList /\
  Sorted (fun a b => (riskOrder (risk a) <= riskOrder (risk b))%Z)
         (sortClausesByRisk clauseList) /\
  sortClausesByRisk (sortClausesByRisk clauseList)
  = sortClausesByRisk clauseList.
Proof.
  split; [apply sort_perm|]. split; [apply sortClausesByRisk_by_risk|].
  rewrite !sortClausesByRisk_by_risk. split; [apply by_risk_sorted|].
  apply by_risk_idempotent.
Qed.

(** X2 ([performSemanticSearch]).  Searching the result of a search
    again with the same query returns that result unchanged. *)
Theorem performSemanticSearch_idempotent clauses query :
  performSemanticSearch (performSemanticSearch clauses query) query
  = performSemanticSearch clauses query.
Proof.
  destruct (string_dec (trim query) "") as [E | NE].
  - rewrite !(@search_blank _ _ E). apply by_risk_idempotent.
  - rewrite !(@search_nonblank _ _ NE).
    rewrite filter_by_risk, filter_idem. apply by_risk_idempotent.
Qed.

(** X3 ([performSemanticSearch]).  A search only selects and reorders:
    for every query the result is a permutation of the clauses that
    pass one test, so it contains no clause that is not in the list, is
    no longer than the list, and repeats no clause when the list
    repeats none. *)
Theorem performSemanticSearch_selects clauses query :
  (exists keep : Clause -> bool,
     Permutation (performSemanticSearch clauses query)
                 (filter keep clauses)) /\
  (forall c, In c (performSemanticSearch clauses query) -> In c clauses) /\
  (List.length (performSemanticSearch clauses query)
   <= List.length clauses)%nat /\
  (NoDup clauses -> NoDup (performSemanticSearch clauses query)).
Proof.
  assert (H : exists keep : Clause -> bool,
             Permutation (performSemanticSearch clauses query)
                         (filter keep clauses)).
  { destruct (string_dec (trim query) "") as [E | NE].
    - exists (fun _ => true). rewrite (@search_blank _ _ E).
      rewrite filter_all by reflexivity. apply by_risk_perm.
    - exists (keeps query). rewrite (@search_nonblank _ _ NE).
      apply by_risk_perm. }
  split; [exact H|]. destruct H as (keep & Hp). split; [|split].
  - intros c Hc. apply (Permutation_in _ Hp) in Hc.
    apply filter_In in Hc. apply Hc.
  - rewrite (Permutation_length Hp). apply filter_length_le.
  - intros Hnd. apply (Permutation_NoDup (Permutation_sym Hp)).
    apply NoDup_filter, Hnd.
Qed.

Lemma performSemanticSearch_selects_witness :
  NoDup (performSemanticSearch SearchSamples.clauses "payment").
Proof.
  apply (proj2 (proj2 (proj2
           (performSemanticSearch_selects SearchSamples.clauses "payment")))).
  repeat (apply NoDup_cons; [vm_compute; intuition discriminate|]).
  apply NoDup_nil.
Defined.

(** X4 ([performSemanticSearch]).  A query of white space only (the
    empty query included; among the characters up to U+00FF the white
    space is tab, line feed, vertical tab, form feed, carriage return,
    space and no-break space) filters nothing: every clause is
    returned, in risk order. *)
Theorem blank_query_returns_all clauses query :
  all_space query = true ->
  performSemanticSearch clauses query = by_risk clauses /\
  Permutation (performSemanticSearch clauses query) clauses.
Proof.
  intros H. apply trim_blank in H. rewrite (@search_blank _ _ H).
  split; [reflexivity | apply by_risk_perm].
Qed.

Lemma blank_query_returns_all_witness :
  performSemanticSearch SearchSamples.clauses SearchSamples.nbsp_query
  = by_risk SearchSamples.clauses /\
  performSemanticSearch SearchSamples.clauses "  "
  = by_risk SearchSamples.clauses.
Proof.
  split.
  - apply (@blank_query_returns_all
             SearchSamples.clauses SearchSamples.nbsp_query).
    reflexivity.
  - apply (@blank_query_returns_all SearchSamples.clauses "  ").
    reflexivity.
Defined.

(** X5 ([performSemanticSearch]).  [split(' ')] yields an empty piece
    for a leading, trailing or doubled space, and every text includes
    the empty string: a query with such a space returns every clause
    whatever its words are. *)
Theorem empty_piece_returns_all clauses query :
  In "" (split " " query) ->
  performSemanticSearch clauses query = by_risk clauses /\
  Permutation (performSemanticSearch clauses query) clauses.
Proof.
  intros Hin.
  assert (E : performSemanticSearch clauses query = by_risk clauses).
  { destruct (string_dec (trim query) "") as [E | NE].
    - apply search_blank, E.
    - rewrite (@search_nonblank _ _ NE). f_equal. apply filter_all.
      intros c. unfold keeps. apply existsb_exists. exists "".
      split; [|apply includes_empty].
      unfold searchTerms. rewrite toLowerCase_split.
      change "" with (toLowerCase ""). apply in_map, Hin. }
  rewrite E. split; [reflexivity | apply by_risk_perm].
Qed.

Lemma empty_piece_returns_all_witness :
  performSemanticSearch SearchSamples.clauses "zzz "
  = by_risk SearchSamples.clauses /\
  Permutation (performSemanticSearch SearchSamples.clauses "zzz ")
              SearchSamples.clauses.
Proof.
  apply (@empty_piece_returns_all SearchSamples.clauses "zzz ").
  vm_compute. right. left. reflexivity.
Defined.

(** X6 ([performSemanticSearch]).  Joining two queries that are not
    blank (not of white space only) with a space searches for either: a
    clause is found by the joined query exactly when one of the two
    queries finds it.  Queries and texts are of characters up to
    U+00FF. *)
Theorem search_is_disjunctive clauses query1 query2 :
  all_space query1 = false -> all_space query2 = false ->
  forall c,
    In c (performSemanticSearch clauses (query1 ++ " " ++ query2)) <->
    In c (performSemanticSearch clauses query1) \/
    In c (performSemanticSearch clauses query2).
Proof.
  intros H1 H2 c.
  assert (N1 : trim query1 <> "").
  { intros E. apply trim_blank in E. congruence. }
  assert (N2 : trim query2 <> "").
  { intros E. apply trim_blank in E. congruence. }
  assert (N : trim (query1 ++ " " ++ query2) <> "").
  { intros E. apply trim_blank in E. rewrite all_space_app, H1 in E.
    discriminate. }
  rewrite !search_nonblank by assumption.
  assert (Hin : forall q, In c (by_risk (filter (keeps q) clauses)) <->
                          In c clauses /\ keeps q c = true).
  { intros q. split.
    - intros Hc. apply (Permutation_in _ (by_risk_perm _)) in Hc.
      apply filter_In in Hc. exact Hc.
    - intros Hc.
      apply (Permutation_in _ (Permutation_sym (by_risk_perm _))).
      apply filter_In. exact Hc. }
  rewrite !Hin.
  assert (Hk : keeps (query1 ++ " " ++ query2) c
               = keeps query1 c || keeps query2 c).
  { unfold keeps, searchTerms. rewrite !toLowerCase_app.
    change (toLowerCase " ") with " ". rewrite split_app.
    apply existsb_app. }
  rewrite Hk, orb_true_iff. tauto.
Qed.

Lemma search_is_disjunctive_witness :
  In SearchSamples.liability
     (performSemanticSearch SearchSamples.clauses
        ("payment" ++ " " ++ "liability")).
Proof.
  apply (proj2 (@search_is_disjunctive
                  SearchSamples.clauses "payment" "liability"
                  eq_refl eq_refl SearchSamples.liability)).
  right. vm_compute. left. reflexivity.
Defined.

(** X7 ([performSemanticSearch]).  The search ignores the case of the
    query: two queries with the same lower-case form (that of
    [String.prototype.toLowerCase], which on the characters up to
    U+00FF folds A to Z and the accented capitals U+00C0 to U+00DE)
    give the same result. *)
Theorem search_ignores_case clauses query1 query2 :
  toLowerCase query1 = toLowerCase query2 ->
  performSemanticSearch clauses query1 = performSemanticSearch clauses query2.
Proof.
  intros E.
  assert (Hs : all_space query1 = all_space query2).
  { rewrite <- (all_space_lower query1), <- (all_space_lower query2), E.
    reflexivity. }
  destruct (all_space query1) eqn:E1.
  - symmetry in Hs. apply trim_blank in E1. apply trim_blank in Hs.
    rewrite (@search_blank _ _ E1), (@search_blank _ _ Hs). reflexivity.
  - assert (N1 : trim query1 <> "").
    { intros B. apply trim_blank in B. congruence. }
    assert (N2 : trim query2 <> "").
    { intros B. apply trim_blank in B. congruence. }
    rewrite (@search_nonblank _ _ N1), (@search_nonblank _ _ N2).
    f_equal. apply filter_ext. intros c. unfold keeps, searchTerms.
    rewrite E. reflexivity.
Qed.

Lemma search_ignores_case_witness :
  performSemanticSearch [SearchSamples.resiliation]
                        SearchSamples.resiliation_upper
  = performSemanticSearch [SearchSamples.resiliation]
                          SearchSamples.resiliation_lower /\
  performSemanticSearch SearchSamples.clauses "Payment TERMS"
  = performSemanticSearch SearchSamples.clauses "payment terms".
Proof.
  split.
  - apply (@search_ignores_case [SearchSamples.resiliation]
             SearchSamples.resiliation_upper
             SearchSamples.resiliation_lower).
    reflexivity.
  - apply (@search_ignores_case SearchSamples.clauses
             "Payment TERMS" "payment terms").
    reflexivity.
Defined.

(** X8 ([sortClausesByRisk], [performSemanticSearch]).  [Array.sort]
    sorts the [clauses] array itself, so a later search of the same
    render runs on the sorted array: it returns what it returns on the
    array as converted. *)
Theorem search_after_sort_in_place clauses query :
  performSemanticSearch (sortClausesByRisk clauses) query
  = performSemanticSearch clauses query.
Proof.
  rewrite sortClausesByRisk_by_risk.
  destruct (string_dec (trim query) "") as [E | NE].
  - rewrite !(@search_blank _ _ E). apply by_risk_idempotent.
  - rewrite !(@search_nonblank _ _ NE).
    rewrite filter_by_risk. apply by_risk_idempotent.
Qed.

End RankingProperties.

(* ================================================================== *)
(** * The estimate as shown *)
(* ================================================================== *)

Module TimeSavedFormatProperties.
Import JsNumber NumberFacts TimeSavedFacts Spec Terms TimeSavedFormatFacts.
Local Open Scope string_scope.

(** X9 ([calculateTimeSaved]).  On non-negative integer page and clause
    counts with [4 * pages + 3 * clauses <= 2^53 - 101] the estimate is
    a string ["1 hr m min"] with [m] an integer between 0 and 60: the
    hour is always 1, and no other text is produced. *)
Theorem calculateTimeSaved_one_hour (pages clauses : Z) :
  (0 <= pages)%Z -> (0 <= clauses)%Z ->
  (4 * pages + 3 * clauses <= 2 ^ 53 - 101)%Z ->
  exists m, (0 <= m <= 60)%Z /\
    DocumentUpload.calculateTimeSaved (of_Z pages) (of_Z clauses)
    = Some ("1 hr " ++ JsString.decimal m ++ " min").
Proof. apply calculateTimeSaved_counts. Qed.

Lemma calculateTimeSaved_one_hour_witness :
  exists m, (0 <= m <= 60)%Z /\
    DocumentUpload.calculateTimeSaved (of_Z 24) (of_Z 10)
    = Some ("1 hr " ++ JsString.decimal m ++ " min").
Proof.
  apply (@calculateTimeSaved_one_hour 24 10); lia.
Defined.

(** X10 ([processResponseData]).  For a payload whose [page_count] and
    [total_clauses_assessed] are absent or non-negative integers (within
    the bound above), the stored [page_count] is the reported one, 24
    when it is absent or 0, and the stored [time_saved] is a string
    ["1 hr m min"] with [0 <= m <= 60]. *)
Theorem time_saved_one_hour resp fileName now (pages total : Z) :
  whole (Payload.page_count resp) pages ->
  whole (Payload.total_clauses_assessed (summary_of resp)) total ->
  (0 <= pages)%Z -> (0 <= total)%Z ->
  (4 * pages + 3 * total <= 2 ^ 53 - 200)%Z ->
  page_count (processResponseData resp fileName now)
  = of_Z (if (pages =? 0)%Z then 24 else pages) /\
  exists m, (0 <= m <= 60)%Z /\
    time_saved (processResponseData resp fileName now)
    = Some ("1 hr " ++ JsString.decimal m ++ " min").
Proof.
  intros Wp Wt Hp Ht Hb.
  change (page_count (processResponseData resp fileName now))
    with (num_or (Payload.page_count resp) (of_Z 24)).
  change (time_saved (processResponseData resp fileName now))
    with (DocumentUpload.calculateTimeSaved
            (num_or (Payload.page_count resp) (of_Z 24))
            (num_or (Payload.total_clauses_assessed (summary_of resp))
                    (of_Z 0))).
  rewrite (num_or_whole 24 Wp), (num_or_whole 0 Wt).
  split; [reflexivity|].
  replace (if (total =? 0)%Z then 0%Z else total) with total
    by (destruct (Z.eqb_spec total 0); congruence).
  apply calculateTimeSaved_counts; destruct (Z.eqb_spec pages 0); lia.
Qed.

Lemma time_saved_one_hour_witness :
  exists m, (0 <= m <= 60)%Z /\
    time_saved (processResponseData Samples.full "contract.pdf" "now")
    = Some ("1 hr " ++ JsString.decimal m ++ " min").
Proof.
  apply (@time_saved_one_hour Samples.full "contract.pdf" "now" 12 3);
    try lia; left; reflexivity.
Defined.

End TimeSavedFormatProperties.

(* ================================================================== *)
(** * Properties of the Dashboard view *)
(* ================================================================== *)

Module DashboardViewProperties.
Import JsNumber JsLib NumberFacts NormaliserFacts Spec Terms ViewFacts.
Local Open Scope string_scope.

(** X11 ([Dashboard], [processResponseData]).  The page count stored by
    the upload is never 0 or NaN, so the Dashboard's own default of 24
    never applies to a stored record: it shows the stored count. *)
Theorem dashboard_keeps_page_count resp fileName now :
  DashboardView.pageCount (Some (processResponseData resp fileName now))
  = page_count (processResponseData resp fileName now) /\
  truthy (page_count (processResponseData resp fileName now)) = true.
Proof.
  split; [apply pageCount_stored | apply page_count_truthy].
Qed.

(** X12 ([Dashboard], [processResponseData]).  When the backend reports
    a total that is neither 0 nor NaN, the Dashboard's clause total is
    the stored one and the estimate it computes again is the stored
    [time_saved]. *)
Theorem dashboard_time_saved_agrees resp fileName now :
  truthy (reported_total resp) = true ->
  DashboardView.totalClauses (Some (processResponseData resp fileName now))
  = total_clauses (processResponseData resp fileName now) /\
  DashboardView.timeSaved (Some (processResponseData resp fileName now))
  = time_saved (processResponseData resp fileName now).
Proof.
  intros T.
  assert (Et : DashboardView.totalClauses
                 (Some (processResponseData resp fileName now))
               = total_clauses (processResponseData resp fileName now)).
  { unfold DashboardView.totalClauses. apply num_or_truthy.
    change (total_clauses (processResponseData resp fileName now))
      with (reported_total resp).
    exact T. }
  split; [exact Et|].
  unfold DashboardView.timeSaved. rewrite Et, pageCount_stored.
  reflexivity.
Qed.

Lemma dashboard_time_saved_agrees_witness :
  DashboardView.timeSaved
    (Some (processResponseData Samples.full "contract.pdf" "now"))
  = time_saved (processResponseData Samples.full "contract.pdf" "now").
Proof.
  apply (proj2 (@dashboard_time_saved_agrees
                  Samples.full "contract.pdf" "now" eq_refl)).
Defined.

(** X13 ([Dashboard]).  With fewer than [2^53] clauses, [totalImpacts]
    is exactly the sum of the bucket values, which is at most the
    number of clauses sent; when the backend reports no total (or 0),
    this sum is the clause total the Dashboard shows. *)
Theorem dashboard_total_from_buckets resp fileName now :
  (Z.of_nat (List.length (clauses_of resp)) < 2 ^ 53)%Z ->
  DashboardView.totalImpacts (Some (processResponseData resp fileName now))
  = of_nat (total_value (risk_data (processResponseData resp fileName now)))
  /\
  (total_value (risk_data (processResponseData resp fileName now))
   <= List.length (clauses_of resp))%nat /\
  (truthy (reported_total resp) = false ->
   DashboardView.totalClauses (Some (processResponseData resp fileName now))
   = of_nat (total_value (risk_data (processResponseData resp fileName now)))).
Proof.
  intros Hb. pose proof (total_value_le resp fileName now) as Hle.
  assert (E : DashboardView.totalImpacts
                (Some (processResponseData resp fileName now))
              = of_nat (total_value
                          (risk_data (processResponseData resp fileName now)))).
  { apply sumValues_exact. lia. }
  split; [exact E|]. split; [exact Hle|].
  intros T. unfold DashboardView.totalClauses.
  change (total_clauses (processResponseData resp fileName now))
    with (reported_total resp).
  cbn [num_or]. rewrite T. exact E.
Qed.

Lemma dashboard_total_from_buckets_witness :
  DashboardView.totalClauses
    (Some (processResponseData Samples.clauses_without_summary "a.pdf" "now"))
  = of_Z 0 /\
  DashboardView.totalImpacts
    (Some (processResponseData Samples.one_high "a.pdf" "now"))
  = of_Z 1.
Proof.
  split.
  - apply (proj2 (proj2 (@dashboard_total_from_buckets
                           Samples.clauses_without_summary "a.pdf" "now"
                           eq_refl))).
    reflexivity.
  - apply (proj1 (@dashboard_total_from_buckets
                    Samples.one_high "a.pdf" "now" eq_refl)).
Defined.

(** X14 ([Dashboard], [processResponseData]).  When the reported high
    and medium counts are absent or non-negative integers with a sum
    below [2^53], the Dashboard's flagged count is the stored
    [flagged_clauses], their sum: the fallback over the buckets gives
    the same 0 when it applies. *)
Theorem dashboard_flagged_agrees resp fileName now (h m : Z) :
  whole (Payload.high_risk_clauses (summary_of resp)) h ->
  whole (Payload.medium_risk_clauses (summary_of resp)) m ->
  (0 <= h)%Z -> (0 <= m)%Z -> (h + m < 2 ^ 53)%Z ->
  DashboardView.flaggedClauses (Some (processResponseData resp fileName now))
  = flagged_clauses (processResponseData resp fileName now) /\
  flagged_clauses (processResponseData resp fileName now) = of_Z (h + m).
Proof.
  intros Wh Wm Hh Hm Hb.
  pose proof (@reported_whole high resp h Wh) as Rh.
  pose proof (@reported_whole medium resp m Wm) as Rm.
  assert (F : flagged_clauses (processResponseData resp fileName now)
              = of_Z (h + m)).
  { change (flagged_clauses (processResponseData resp fileName now))
      with (reported high resp + reported medium resp)%js.
    rewrite Rh, Rm. apply add_counts; assumption. }
  split; [|exact F].
  unfold DashboardView.flaggedClauses. rewrite F.
  destruct (Z.eq_dec (h + m) 0) as [Z0 | NZ].
  - assert (h = 0%Z) by lia. assert (m = 0%Z) by lia. subst h m.
    cbn [num_or Z.add]. change (truthy (of_Z 0)) with false. cbv iota.
    unfold DashboardView.riskData. rewrite risk_data_shape.
    unfold reported_levels. cbn [filter]. rewrite Rh, Rm.
    change (gtb (of_Z 0) (of_Z 0)) with false. cbv iota.
    destruct (gtb (reported low resp) (of_Z 0)); reflexivity.
  - apply num_or_truthy. destruct (h + m)%Z; [congruence | reflexivity..].
Qed.

Lemma dashboard_flagged_agrees_witness :
  DashboardView.flaggedClauses
    (Some (processResponseData Samples.full "a.pdf" "now"))
  = of_Z 2.
Proof.
  destruct (@dashboard_flagged_agrees Samples.full "a.pdf" "now" 1 1)
    as [E F]; try lia; try (left; reflexivity).
  rewrite E. exact F.
Defined.

(** X15 ([Dashboard], Document ID).  A name that ends in a dot and an
    extension (one or more characters, none a dot or a slash) is shown
    without them: only the last extension goes, and a name that is
    nothing but an extension is shown empty. *)
Theorem nameWithoutExt_strips_extension base ext :
  ext <> "" -> DashboardView.ext_chars ext = true ->
  DashboardView.nameWithoutExt (base ++ "." ++ ext) = base.
Proof.
  intros Hne Hext. unfold DashboardView.nameWithoutExt.
  rewrite (stripped_ext base Hne Hext). reflexivity.
Qed.

Lemma nameWithoutExt_strips_extension_witness :
  DashboardView.nameWithoutExt ("lease.v2" ++ "." ++ "pdf") = "lease.v2".
Proof.
  apply (@nameWithoutExt_strips_extension "lease.v2" "pdf");
    [discriminate | reflexivity].
Defined.

(** X16 ([Dashboard], Document ID).  The Document ID is never longer
    than 23 characters, and it starts the document name: either the
    name is left as it is, or what was removed from it is exactly one
    dot followed by a non-empty extension without dot or slash. *)
Theorem documentId_bounded name :
  (String.length (DashboardView.documentId name) <= 23)%nat /\
  (DashboardView.nameWithoutExt name = name \/
   exists ext, ext <> "" /\ DashboardView.ext_chars ext = true /\
               name = DashboardView.nameWithoutExt name ++ "." ++ ext).
Proof.
  split.
  - unfold DashboardView.documentId.
    destruct (Nat.ltb_spec 20
                (String.length (DashboardView.nameWithoutExt name))).
    + rewrite append_length.
      pose proof (take_length 20 (DashboardView.nameWithoutExt name)).
      cbn [String.length]. lia.
    + lia.
  - unfold DashboardView.nameWithoutExt.
    destruct (DashboardView.stripped name) as [base|] eqn:E.
    + right. apply stripped_spec, E.
    + left. reflexivity.
Qed.

End DashboardViewProperties.

(* ================================================================== *)
(** * Properties of the risk pie chart *)
(* ================================================================== *)

Module RiskPieChartProperties.
Import JsNumber JsLib NumberFacts NormaliserFacts Spec Terms ViewFacts
       TimeSavedFormatFacts.
Local Open Scope string_scope.

(** X17 ([RiskPieChart]).  Whenever the chart is drawn (bucket values
    summing to less than [2^53]), the share the tooltip computes for a
    bucket of the data is a finite number between 0 and 100: the
    division is never by zero and never yields NaN or an infinity. *)
Theorem chart_percent_in_range data item :
  (Z.of_nat (total_value data) < 2 ^ 53)%Z ->
  RiskPieChart.showsChart data = true -> In item data ->
  exists p, RiskPieChart.percentOfTotal data item = Fin p /\
            (0 <= p)%Q /\ (p <= 100)%Q.
Proof.
  intros Hb Hs Hin.
  unfold RiskPieChart.showsChart, RiskPieChart.totalImpacts in Hs.
  rewrite (sumValues_exact _ Hb), is_zero_of_nat in Hs.
  apply negb_true_iff, orb_false_iff in Hs. destruct Hs as [_ Hs].
  apply Nat.eqb_neq in Hs.
  pose proof (value_le_total _ _ Hin) as Hle.
  unfold RiskPieChart.percentOfTotal, RiskPieChart.totalImpacts.
  rewrite (sumValues_exact _ Hb).
  set (v := RiskData.value item) in *. set (t := total_value data) in *.
  assert (Ht : (0 < inject_Z (Z.of_nat t))%Q).
  { change 0%Q with (inject_Z 0). rewrite <- Zlt_Qlt. lia. }
  unfold of_nat, of_Z. cbv beta iota delta [div].
  assert (Sg : sgn (inject_Z (Z.of_nat t)) = Gt) by (apply Qgt_alt; exact Ht).
  rewrite Sg.
  assert (Eu : exists u,
             round64 (inject_Z (Z.of_nat v) / inject_Z (Z.of_nat t))
             = Fin u /\ (0 <= u <= 1)%Q).
  { apply (@round64_between 0 1 0 1).
    - apply Qle_refl.
    - apply Qle_shift_div_l; [exact Ht|]. rewrite Qmult_0_l.
      change 0%Q with (inject_Z 0). rewrite <- Zle_Qle. lia.
    - apply Qle_shift_div_r; [exact Ht|]. rewrite Qmult_1_l.
      rewrite <- Zle_Qle. lia.
    - vm_compute; reflexivity.
    - apply round64_one. }
  destruct Eu as (u & Eu & Hu). rewrite Eu. cbv beta iota delta [mul].
  assert (Ep : exists p, round64 (u * inject_Z 100) = Fin p /\
                         (0 <= p <= 100)%Q).
  { apply (@round64_between 0 100 0 100).
    - apply Qle_refl.
    - change (inject_Z 100) with 100%Q. lra.
    - change (inject_Z 100) with 100%Q. lra.
    - vm_compute; reflexivity.
    - vm_compute; reflexivity. }
  destruct Ep as (p & Ep & Hp). exists p. rewrite Ep. tauto.
Qed.

Lemma chart_percent_in_range_witness :
  exists p,
    RiskPieChart.percentOfTotal
      (risk_data (processResponseData Samples.full "a.pdf" "now"))
      (bucket_of high (clauses_of Samples.full))
    = Fin p /\ (0 <= p)%Q /\ (p <= 100)%Q.
Proof.
  apply (@chart_percent_in_range
           (risk_data (processResponseData Samples.full "a.pdf" "now"))
           (bucket_of high (clauses_of Samples.full))).
  - vm_compute; reflexivity.
  - vm_compute; reflexivity.
  - left. vm_compute. reflexivity.
Defined.

(** X18 ([RiskPieChart]).  The chart is drawn exactly when some bucket
    has a positive value (values summing to less than [2^53]);
    otherwise, as for the Dashboard's three zero buckets and for an
    empty [risk_data], "No risk data available" is shown. *)
Theorem chart_shown_iff_some_value data :
  (Z.of_nat (total_value data) < 2 ^ 53)%Z ->
  (RiskPieChart.showsChart data = true <->
   exists item, In item data /\ (0 < RiskData.value item)%nat).
Proof.
  intros Hb. rewrite <- total_positive.
  unfold RiskPieChart.showsChart, RiskPieChart.totalImpacts.
  rewrite (sumValues_exact _ Hb), is_zero_of_nat.
  rewrite negb_true_iff, orb_false_iff, !Nat.eqb_neq.
  split; [lia|]. intros H. split; [|lia].
  destruct data; [cbn in H; lia | discriminate].
Qed.

Lemma chart_shown_iff_some_value_witness :
  RiskPieChart.showsChart DashboardView.defaultRiskData = false.
Proof.
  apply not_true_is_false. intros H.
  apply (proj1 (@chart_shown_iff_some_value DashboardView.defaultRiskData
                  eq_refl)) in H.
  destruct H as (item & Hin & Hv).
  destruct Hin as [<- | [<- | [<- | []]]]; cbn in Hv; lia.
Defined.

End RiskPieChartProperties.

(* ================================================================== *)
(** * Properties of the clause lists of the views *)
(* ================================================================== *)

Module ClauseObjectProperties.
Import JsLib Spec Terms NormaliserFacts ViewFacts ClauseObjectFacts.
Local Open Scope string_scope.


(** X20 ([convertBackendDataToClauses] of the detailed analysis view
    against [processResponseData]).  After an upload the view lists as
    many high and low clauses as the payload has with that
    [risk_level], and as medium those with level "medium" and those
    with none; so a bucket of the stored [risk_data] never counts more
    clauses than the view lists for its level, and the Medium bucket
    counts fewer when a clause has no level. *)
Theorem detailed_counts_against_buckets resp fileName now :
  DetailedView.countRisk "high"
    (DetailedView.convertBackendDataToClauses
       (Some (processResponseData resp fileName now)))
  = count_level "high" (clauses_of resp) /\
  DetailedView.countRisk "low"
    (DetailedView.convertBackendDataToClauses
       (Some (processResponseData resp fileName now)))
  = count_level "low" (clauses_of resp) /\
  DetailedView.countRisk "medium"
    (DetailedView.convertBackendDataToClauses
       (Some (processResponseData resp fileName now)))
  = (count_level "medium" (clauses_of resp)
     + count_level "" (clauses_of resp))%nat /\
  forall b, In b (risk_data (processResponseData resp fileName now)) ->
    exists r, RiskData.name b = level_name r /\
      (RiskData.value b
       <= DetailedView.countRisk (level_key r)
            (DetailedView.convertBackendDataToClauses
               (Some (processResponseData resp fileName now))))%nat.
Proof.
  set (d := processResponseData resp fileName now).
  assert (Ec : stored_clauses d = clauses_of resp)
    by apply stored_clauses_processed.
  assert (Eh : DetailedView.countRisk "high"
                 (DetailedView.convertBackendDataToClauses (Some d))
               = count_level "high" (clauses_of resp) /\
               DetailedView.countRisk "low"
                 (DetailedView.convertBackendDataToClauses (Some d))
               = count_level "low" (clauses_of resp) /\
               DetailedView.countRisk "medium"
                 (DetailedView.convertBackendDataToClauses (Some d))
               = (count_level "medium" (clauses_of resp)
                  + count_level "" (clauses_of resp))%nat).
  { unfold DetailedView.convertBackendDataToClauses.
    fold (stored_clauses d). rewrite Ec.
    destruct (clauses_of resp) as [|a cs] eqn:E.
    - cbn. auto.
    - rewrite <- E. replace (List.length (clauses_of resp) =? 0)%nat
        with false by (rewrite E; reflexivity).
      unfold DetailedView.countRisk, count_level, mapi.
      split; [|split].
      + apply mapi_from_filter_length. intros x j.
        cbn [ClauseObject.risk]. apply str_or_level; discriminate.
      + apply mapi_from_filter_length. intros x j.
        cbn [ClauseObject.risk]. apply str_or_level; discriminate.
      + rewrite <- filter_or_length.
        * apply mapi_from_filter_length. intros x j.
          cbn [ClauseObject.risk]. apply str_or_medium.
        * intros x. apply level_disjoint. discriminate. }
  destruct Eh as (Eh & El & Em).
  split; [exact Eh|]. split; [exact El|]. split; [exact Em|].
  intros b Hb. unfold d in Hb. rewrite risk_data_shape in Hb.
  apply in_map_iff in Hb. destruct Hb as (r & <- & _).
  exists r. split; [reflexivity|].
  rewrite (proj1 (bucket_of_value r (clauses_of resp))).
  destruct r; cbn [level_key]; rewrite ?Eh, ?El, ?Em; lia.
Qed.

(** X21 ([convertBackendDataToClauses], detailed analysis view).  The
    cast of [risk_level] checks nothing: every clause shown has one of
    the three risks of the [Clause] interface exactly when every stored
    assessment has level "high", "medium" or "low", or none (which is
    shown as medium). *)
Theorem detailed_clauses_typed d :
  Forall (fun c => DetailedView.typed c <> None)
         (DetailedView.convertBackendDataToClauses (Some d)) <->
  Forall (fun a => recognised a \/ risk_level a = "") (stored_clauses d).
Proof.
  unfold DetailedView.convertBackendDataToClauses. fold (stored_clauses d).
  destruct (stored_clauses d) as [|a0 cs0] eqn:E.
  - cbn. split; constructor.
  - rewrite <- E. replace (List.length (stored_clauses d) =? 0)%nat
      with false by (rewrite E; reflexivity).
    unfold mapi. apply mapi_from_Forall_iff. intros x j.
    rewrite typed_risk. cbn [ClauseObject.risk]. rewrite risk_of_some.
    unfold recognised. destruct (risk_level x) as [|c s]; cbn [str_or].
    + split; [auto | intros _; auto].
    + split; [auto | intros [H | H]; [exact H | discriminate H]].
Qed.

Lemma detailed_clauses_typed_witness :
  Forall (fun c => DetailedView.typed c <> None)
         (DetailedView.convertBackendDataToClauses
            (Some (processResponseData Samples.full "a.pdf" "now"))).
Proof.
  apply (proj2 (detailed_clauses_typed
                  (processResponseData Samples.full "a.pdf" "now"))).
  vm_compute. repeat (apply Forall_cons; [auto 6|]). apply Forall_nil.
Defined.




(** X24 ([toggleClauseSelection]).  On a selection without repeated
    index, toggling an index flips its membership and nothing else:
    the new selection has no repeated index, holds the index exactly
    when the old one did not, holds any other index exactly when the
    old one did, and its size differs by one; toggling the same index
    again gives back the same members. *)
Theorem toggleClauseSelection_flips selectedClauses index :
  NoDup selectedClauses ->
  NoDup (CounterProposal.toggleClauseSelection selectedClauses index) /\
  (forall j,
     In j (CounterProposal.toggleClauseSelection selectedClauses index) <->
     (j = index /\ ~ In index selectedClauses) \/
     (j <> index /\ In j selectedClauses)) /\
  (forall j,
     In j (CounterProposal.toggleClauseSelection
             (CounterProposal.toggleClauseSelection selectedClauses index)
             index) <->
     In j selectedClauses) /\
  List.length (CounterProposal.toggleClauseSelection selectedClauses index)
  = (if CounterProposal.has selectedClauses index
     then List.length selectedClauses - 1
     else List.length selectedClauses + 1)%nat.
Proof.
  intros Hnd.
  assert (Hm : forall s j,
             In j (CounterProposal.toggleClauseSelection s index) <->
             (j = index /\ ~ In index s) \/ (j <> index /\ In j s)).
  { intros s j. unfold CounterProposal.toggleClauseSelection.
    destruct (CounterProposal.has s index) eqn:Eh.
    - apply has_spec in Eh. rewrite delete_spec. tauto.
    - assert (Hn : ~ In index s).
      { intros H. apply has_spec in H. congruence. }
      unfold CounterProposal.add. rewrite Eh, in_app_iff. cbn [In].
      destruct (Nat.eq_dec j index) as [-> | N]; [tauto|].
      split; [intros [H | [H | []]]; [tauto | congruence] | tauto]. }
  split; [|split; [apply Hm | split]].
  - unfold CounterProposal.toggleClauseSelection.
    destruct (CounterProposal.has selectedClauses index) eqn:Eh.
    + apply NoDup_filter, Hnd.
    + unfold CounterProposal.add. rewrite Eh.
      apply NoDup_app; [exact Hnd | repeat constructor; intros [] |].
      intros x Hx [<- | []]. apply has_spec in Hx. congruence.
  - assert (Hi : forall s,
               In index (CounterProposal.toggleClauseSelection s index) <->
               ~ In index s).
    { intros s. rewrite Hm. split.
      - intros [[_ H] | [H _]]; [exact H | congruence].
      - intros H. left. split; [reflexivity | exact H]. }
    assert (Ho : forall s j, j <> index ->
               (In j (CounterProposal.toggleClauseSelection s index) <->
                In j s)).
    { intros s j N. rewrite Hm. split.
      - intros [[H _] | [_ H]]; [congruence | exact H].
      - intros H. right. split; assumption. }
    intros j. destruct (Nat.eq_dec j index) as [-> | N].
    + rewrite Hi, Hi.
      destruct (in_dec Nat.eq_dec index selectedClauses); tauto.
    + rewrite (Ho _ _ N), (Ho _ _ N). reflexivity.
  - unfold CounterProposal.toggleClauseSelection.
    destruct (CounterProposal.has selectedClauses index) eqn:Eh.
    + apply has_spec in Eh. pose proof (@delete_length _ _ Hnd Eh). lia.
    + unfold CounterProposal.add. rewrite Eh, length_app. reflexivity.
Qed.

Lemma toggleClauseSelection_flips_witness :
  NoDup (CounterProposal.toggleClauseSelection [2; 0]%nat 2%nat).
Proof.
  apply (proj1 (@toggleClauseSelection_flips [2; 0]%nat 2%nat
                  ltac:(repeat constructor; cbn; lia))).
Defined.

End ClauseObjectProperties.

(* ================================================================== *)
(** * Properties of the impacts *)
(* ================================================================== *)

Module ImpactProperties.
Import Spec Terms NormaliserFacts ClauseObjectFacts ImpactFacts.
Local Open Scope string_scope.

(** X27 ([processResponseData]).  In every stored record the ids of the
    impacts are pairwise distinct, over all buckets together; the
    impacts of a bucket are named "Clause 1", "Clause 2", ... up to the
    bucket's value, a numbering within the bucket and not the clause's
    position in the document; and no impact has an empty
    description. *)
Theorem impacts_numbered_and_distinct resp fileName now :
  NoDup (map RiskImpact.id
           (flat_map RiskData.impacts
              (risk_data (processResponseData resp fileName now)))) /\
  forall b, In b (risk_data (processResponseData resp fileName now)) ->
    map RiskImpact.name (RiskData.impacts b)
    = map (fun index => "Clause " ++ nat_str (index + 1))
          (seq 0 (RiskData.value b)) /\
    Forall (fun im => RiskImpact.description im <> "") (RiskData.impacts b).
Proof.
  rewrite risk_data_shape. split.
  - apply buckets_ids_NoDup, reported_levels_NoDup.
  - intros b Hb. apply in_map_iff in Hb. destruct Hb as (r & <- & _).
    unfold bucket_of, mapi. cbn [RiskData.impacts RiskData.value]. split.
    + apply mapi_from_map. reflexivity.
    + apply mapi_from_Forall. intros x j.
      cbn [impact_of RiskImpact.description]. apply str_or_nonempty.
      destruct r; discriminate.
Qed.

End ImpactProperties.

(* ================================================================== *)
(** * Properties of the upload handlers *)
(* ================================================================== *)

Module UploadFlowProperties.
Import UploadFlow Terms UploadFlowFacts.
Local Open Scope string_scope.

(** X25 ([handleFileUpload], [handleDrop], [handleFileSelect]).
    Whatever is dropped or selected and however the requests end, the
    context's [analysisData] is [null] or the record
    [processResponseData] made from the body [responseData] of a
    successful response that one of the events delivered, at the time
    [now], for a request, with the name of the file whose upload that
    request is: a file of type "application/pdf" that one of the events
    offered first in a drop or a selection.  In particular it stays
    [null] as long as no PDF file is offered first, and as long as no
    request has ended in a successful response. *)
Theorem analysisData_from_pdf_upload events :
  (analysisData (run events) = None \/
   exists request responseData file files now,
     nth_error (uploads events) request = Some file /\
     (In (drop (file :: files)) events \/
      In (fileSelect (file :: files)) events) /\
     type file = "application/pdf" /\
     In (settled request (ok responseData) now) events /\
     analysisData (run events)
     = Some (processResponseData responseData (name file) now)) /\
  ((forall file files,
      In (drop (file :: files)) events \/
      In (fileSelect (file :: files)) events ->
      type file <> "application/pdf") ->
   analysisData (run events) = None) /\
  ((forall request responseData now,
      ~ In (settled request (ok responseData) now) events) ->
   analysisData (run events) = None).
Proof.
  assert (H : analysisData (run events) = None \/
              exists request responseData file files now,
                nth_error (uploads events) request = Some file /\
                (In (drop (file :: files)) events \/
                 In (fileSelect (file :: files)) events) /\
                type file = "application/pdf" /\
                In (settled request (ok responseData) now) events /\
                analysisData (run events)
                = Some (processResponseData responseData (name file) now)).
  { destruct (inv_data (Inv_run events))
      as [H | (request & responseData & file & now & Hs & Hn & E)];
      [left; exact H|].
    destruct (uploads_offered events file (nth_error_In _ _ Hn))
      as (Ht & files & Ho).
    right. exists request, responseData, file, files, now. auto. }
  split; [exact H|]. split.
  - intros Hno.
    destruct H as [H | (request & responseData & file & files & now
                        & _ & Ho & Ht & _)]; [exact H|].
    exfalso. exact (Hno file files Ho Ht).
  - intros Hno.
    destruct H as [H | (request & responseData & file & files & now
                        & _ & _ & _ & Hs & _)]; [exact H|].
    exfalso. exact (Hno request responseData now Hs).
Qed.

Lemma analysisData_from_pdf_upload_witness :
  analysisData
    (run [drop [{| name := "notes.txt"; type := "text/plain" |}];
          settled 0 (ok Samples.full) "now"]) = None.
Proof.
  apply (proj1 (proj2 (analysisData_from_pdf_upload
                         [drop [{| name := "notes.txt";
                                   type := "text/plain" |}];
                          settled 0 (ok Samples.full) "now"]))).
  intros file files [H | H].
  - destruct H as [H | [H | []]]; [|discriminate H].
    injection H as <- _. discriminate.
  - destruct H as [H | [H | []]]; discriminate H.
Defined.

(** X26 ([handleFileUpload]).  The [finally] clears the loading flag
    and every way out of the [try] sets a status: once no request is
    pending, [isLoading] is false and the status is not "uploading",
    after any sequence of events. *)
Theorem settled_uploads_clear_loading events :
  pending (run events) = [] ->
  isLoading (run events) = false /\ uploadStatus (run events) <> uploading.
Proof.
  intros E. pose proof (Inv_run events) as [_ _ _ H3 H4]. split.
  - destruct (isLoading (run events)); [|reflexivity].
    exfalso. apply (H3 eq_refl), E.
  - intros U. apply H4 in U. rewrite E in U. exact U.
Qed.

Lemma settled_uploads_clear_loading_witness :
  isLoading
    (run [drop [{| name := "lease.pdf"; type := "application/pdf" |}];
          settled 0 notOk "now"]) = false.
Proof.
  apply (proj1 (@settled_uploads_clear_loading
                  [drop [{| name := "lease.pdf";
                            type := "application/pdf" |}];
                   settled 0 notOk "now"] eq_refl)).
Defined.

End UploadFlowProperties.
